(** * gcode2vtk: the G-code line reader, the extrusion path reader and the
      VTK writer of [gcode2vtk.py], embedded and verified.

    The development follows the source file top to bottom:
    - [PyFloat]: Python's [float] (IEEE 754 binary64) and the builtin
      [float(str)] on the strings the coordinate pattern can capture;
    - [Re]: the fragment of Python's [re] that the two patterns of
      [readGcodeLine] use, as a backtracking matcher;
    - [readGcodeLine], [hasCoordinate], [hasExtrusion], [getPoint],
      [readGcodeFile] and [write2VtkFile], under the names of the source.

    Lines are ASCII text (one [ascii] per character), so [\d] is [0-9]. *)

From Stdlib Require Import ZArith Ascii String List Bool Lia.
From Stdlib Require Import Floats.SpecFloat.
From Stdlib Require Import DecimalString.
From stdpp Require Import gmap strings list.

Local Open Scope string_scope.
Local Open Scope list_scope.

(** ** Python floats *)

Module PyFloat.

(** A Python [float] is an IEEE 754 binary64 number. *)
Definition prec : Z := 53.
Definition emax : Z := 1024.

Definition float : Type := spec_float.

Definition zero : float := S754_zero false.

(** [a * b], [a == b] and [a > b] on floats. *)
Definition mul (a b : float) : float := SFmul prec emax a b.
Definition eqb (a b : float) : bool := SFeqb a b.
Definition gtb (a b : float) : bool := SFltb b a.

Definition is_nan (a : float) : bool :=
  match a with S754_nan => true | _ => false end.

(** The float nearest to [(-1)^neg * m / 10^k] (ties to even): the value
    of a decimal numeral with digits [m], [k] of them after the point.
    The quotient of the two integers is rounded once, by the division of
    [SpecFloat]. *)
Definition of_decimal (neg : bool) (m : Z) (k : nat) : float :=
  match m with
  | Zpos p =>
      SFdiv prec emax (S754_finite neg p 0)
                      (S754_finite false (Z.to_pos (10 ^ Z.of_nat k)) 0)
  | _ => S754_zero neg
  end.

(** Characters and digit strings. *)
Definition is_digit (c : ascii) : bool :=
  (48 <=? nat_of_ascii c)%nat && (nat_of_ascii c <=? 57)%nat.

Definition digit_value (c : ascii) : Z := Z.of_nat (nat_of_ascii c) - 48.

(** The longest prefix of digits, read as a number after [acc], with
    how many digits it has and what follows it. *)
Fixpoint read_digits (acc : Z) (n : nat) (s : string) : Z * nat * string :=
  match s with
  | String c s' =>
      if is_digit c then read_digits (10 * acc + digit_value c) (S n) s'
      else (acc, n, s)
  | EmptyString => (acc, n, s)
  end.

Definition read_sign (s : string) : bool * string :=
  match s with
  | String "+" s' => (false, s')
  | String "-" s' => (true, s')
  | _ => (false, s)
  end.

(** [float(s)] for a string [s] of signs, digits and points: an optional
    sign, then digits with an optional point, at least one digit in all.
    [None] is the [ValueError] that [float] raises on any other such
    string. *)
Definition float_of_string (s : string) : option float :=
  let '(neg, body) := read_sign s in
  let '(ip, ni, r1) := read_digits 0 0 body in
  match r1 with
  | EmptyString =>
      if (0 <? ni)%nat then Some (of_decimal neg ip 0) else None
  | String "." r =>
      let '(m, n, r2) := read_digits ip ni r in
      match r2 with
      | EmptyString =>
          if (0 <? n)%nat then Some (of_decimal neg m (n - ni)) else None
      | _ => None
      end
  | _ => None
  end.

End PyFloat.

(** ** The fragment of Python's [re] module used by [readGcodeLine] *)

Module Re.

(** A set of characters: a literal, a class [[...]] or [\d]. *)
Inductive cset : Type :=
| Chr (c : ascii)
| OneOf (cs : list ascii)
| Digit.

Definition in_cset (p : cset) (c : ascii) : bool :=
  match p with
  | Chr c' => Ascii.eqb c c'
  | OneOf cs => existsb (Ascii.eqb c) cs
  | Digit => PyFloat.is_digit c
  end.

(** Patterns. The quantifiers [*] and [+] are applied to one-character
    sets only, which is all the patterns of the program need. Groups
    carry the number Python gives them (by opening parenthesis). *)
Inductive regex : Type :=
| Bol                          (* ^ *)
| One (p : cset)
| Seq (r1 r2 : regex)
| Alt (r1 r2 : regex)          (* r1|r2, r1 tried first *)
| Opt (r : regex)              (* r?, greedy *)
| Star (p : cset)              (* p*, greedy *)
| Plus (p : cset)              (* p+, greedy *)
| Group (n : nat) (r : regex).

(** The spans [(start, end)] of the groups matched so far, latest first. *)
Definition captures : Type := list (nat * (nat * nat)).

(** A continuation receives the position reached, the text that is left
    and the groups; [None] makes the matcher backtrack. *)
Definition cont (A : Type) : Type := nat -> string -> captures -> option A.

Definition orelse {A} (x y : option A) : option A :=
  match x with Some _ => x | None => y end.

Fixpoint star {A} (p : cset) (k : cont A) (i : nat) (s : string)
    (g : captures) : option A :=
  match s with
  | String c s' =>
      if in_cset p c then orelse (star p k (S i) s' g) (k i s g)
      else k i s g
  | EmptyString => k i s g
  end.

Fixpoint exec {A} (r : regex) (k : cont A) (i : nat) (s : string)
    (g : captures) : option A :=
  match r with
  | Bol => if (i =? 0)%nat then k i s g else None
  | One p =>
      match s with
      | String c s' => if in_cset p c then k (S i) s' g else None
      | EmptyString => None
      end
  | Seq r1 r2 => exec r1 (exec r2 k) i s g
  | Alt r1 r2 => orelse (exec r1 k i s g) (exec r2 k i s g)
  | Opt r' => orelse (exec r' k i s g) (k i s g)
  | Star p => star p k i s g
  | Plus p =>
      match s with
      | String c s' => if in_cset p c then star p k (S i) s' g else None
      | EmptyString => None
      end
  | Group n r' => exec r' (fun j s' g' => k j s' ((n, (i, j)) :: g')) i s g
  end.

(** A match object: the searched string, the span of the whole match
    and the spans of the groups. *)
Record rmatch : Type := Match {
  m_string : string;
  m_start : nat;
  m_end : nat;
  m_groups : captures
}.

Definition accept (whole : string) (i : nat) : cont rmatch :=
  fun j _ g => Some (Match whole i j g).

(** The match that starts at position [i], where [s] is the text from
    [i] on. *)
Definition match_at (r : regex) (whole : string) (i : nat) (s : string)
    : option rmatch :=
  exec r (accept whole i) i s [].

(** [re.search]: the match at the leftmost position that has one. *)
Fixpoint search_from (r : regex) (whole : string) (i : nat) (s : string)
    : option rmatch :=
  match match_at r whole i s with
  | Some m => Some m
  | None =>
      match s with
      | String _ s' => search_from r whole (S i) s'
      | EmptyString => None
      end
  end.

Definition search (r : regex) (s : string) : option rmatch :=
  search_from r s 0 s.

(** [re.finditer]: the matches from left to right, none overlapping
    another. [skip] counts the characters at [i] and after that belong
    to the match found last; the scan resumes where that match ended. *)
Fixpoint finditer_from (r : regex) (whole : string) (i : nat) (s : string)
    (skip : nat) : list rmatch :=
  match skip with
  | S skip' =>
      match s with
      | String _ s' => finditer_from r whole (S i) s' skip'
      | EmptyString => []
      end
  | O =>
      match match_at r whole i s with
      | Some m =>
          m :: match s with
               | String _ s' =>
                   finditer_from r whole (S i) s' (m_end m - i - 1)
               | EmptyString => []
               end
      | None =>
          match s with
          | String _ s' => finditer_from r whole (S i) s' 0
          | EmptyString => []
          end
      end
  end.

Definition finditer (r : regex) (s : string) : list rmatch :=
  finditer_from r s 0 s 0.

(** [m.group(n)]: the whole match for [n = 0], else the text of group
    [n], [None] when the group took no part in the match. *)
Definition span (m : rmatch) (n : nat) : option (nat * nat) :=
  match n with
  | O => Some (m_start m, m_end m)
  | _ => snd <$> List.find (fun e => (fst e =? n)%nat) (m_groups m)
  end.

Definition group (m : rmatch) (n : nat) : option string :=
  (fun se => substring (fst se) (snd se - fst se) (m_string m)) <$> span m n.

(** [re.sub(r, repl, s)] for a pattern [r] whose matches are not empty:
    the text outside the matches is kept, each match becomes [repl]. *)
Fixpoint sub_from (r : regex) (repl whole : string) (i : nat) (s : string)
    (skip : nat) : string :=
  match s with
  | EmptyString => EmptyString
  | String c s' =>
      match skip with
      | S skip' => sub_from r repl whole (S i) s' skip'
      | O =>
          match match_at r whole i s with
          | Some m =>
              repl +:+ sub_from r repl whole (S i) s' (m_end m - i - 1)
          | None => String c (sub_from r repl whole (S i) s' 0)
          end
      end
  end.

Definition sub (r : regex) (repl s : string) : string :=
  sub_from r repl s 0 s 0.

End Re.

Import PyFloat Re.

(** ** Exceptions *)

Inductive exn : Type := ValueError | IndexError | TypeError.

(** A call either returns a value or raises. *)
Inductive result (A : Type) : Type :=
| Ok (a : A)
| Raise (e : exn).
Arguments Ok {A} a.
Arguments Raise {A} e.

Definition bind {A B} (x : result A) (k : A -> result B) : result B :=
  match x with
  | Ok a => k a
  | Raise e => Raise e
  end.

Notation "'do' x <- e ; k" := (bind e (fun x => k))
  (at level 10, x name, e at level 100, k at level 200).

(** A [for] loop whose body may raise. *)
Fixpoint for_each {A S} (body : S -> A -> result S) (xs : list A) (st : S)
    : result S :=
  match xs with
  | [] => Ok st
  | x :: xs' => do st' <- body st x; for_each body xs' st'
  end.

(** [s[0]] of a string that a match group returned. *)
Definition first_char (o : option string) : result ascii :=
  match o with
  | Some (String c _) => Ok c
  | Some EmptyString => Raise IndexError
  | None => Raise TypeError
  end.

(** [float(g)] of a match group. *)
Definition py_float (o : option string) : result float :=
  match o with
  | Some s =>
      match float_of_string s with
      | Some x => Ok x
      | None => Raise ValueError
      end
  | None => Raise TypeError
  end.

(** ** readGcodeLine *)

(** The dictionary that [readGcodeLine] returns has a string under
    ["type"] and floats under the other keys. The two kinds of entries are
    kept apart: [ty] is the entry of ["type"], which every returned
    dictionary has, and [fields] holds the numeric entries. *)
Record gcode_dict : Type := Dict {
  ty : string;
  fields : gmap string float
}.

(** [output[key] = v] and [key in output], for a numeric key. *)
Definition setitem (key : string) (v : float) (output : gcode_dict)
    : gcode_dict :=
  Dict (ty output) (<[key := v]> (fields output)).

Definition contains (key : string) (d : gcode_dict) : bool :=
  match fields d !! key with Some _ => true | None => false end.

(** The pattern of the type of line: a [;] at the start of the line
    (group 1), or the letter [G] and one or more digits (group 2). *)
Definition typeOfLinePattern : regex :=
  Alt (Seq Bol (Group 1 (One (Chr ";"))))
      (Group 2 (Seq (One (OneOf ["G"%char])) (Plus Digit))).

(** The pattern of a coordinate: one of the letters of the class [XYZE],
    then group 1, which is made of group 2, an optional sign, and group 3,
    the alternation of
    - group 4: one or more digits (group 5), then optionally a point and
      one or more digits (group 6);
    - group 7: an optional sign, zero or more digits (group 8), then a
      point and one or more digits (group 9). *)
Definition coordinatePattern : regex :=
  Seq (One (OneOf ["X"; "Y"; "Z"; "E"]%char))
    (Group 1
       (Seq (Group 2 (Opt (One (OneOf ["+"; "-"]%char))))
          (Group 3
             (Alt
                (Group 4
                   (Seq (Group 5 (Plus Digit))
                        (Opt (Group 6 (Seq (One (Chr ".")) (Plus Digit))))))
                (Group 7
                   (Seq (Opt (One (OneOf ["+"; "-"]%char)))
                      (Seq (Group 8 (Star Digit))
                           (Group 9 (Seq (One (Chr ".")) (Plus Digit)))))))))).

(** [output[key] = float(match.group(1))] *)
Definition store (key : string) (m : rmatch) (output : gcode_dict)
    : result gcode_dict :=
  do v <- py_float (group m 1); Ok (setitem key v output).

(** The body of the loop over the coordinate matches: an [if] for ["F"],
    then the [if]/[elif] chain for the four axes. *)
Definition processMatch (output : gcode_dict) (m : rmatch)
    : result gcode_dict :=
  do c <- first_char (group m 0);
  do output <- (if Ascii.eqb c "F" then store "F" m output else Ok output);
  if Ascii.eqb c "X" then store "X" m output
  else if Ascii.eqb c "Y" then store "Y" m output
  else if Ascii.eqb c "Z" then store "Z" m output
  else if Ascii.eqb c "E" then store "E" m output
  else Ok output.

(** The coordinate phase: the loop over [re.finditer(coordinatePattern,
    line)]. *)
Definition processCoordinates (line : string) (output : gcode_dict)
    : result gcode_dict :=
  for_each processMatch (finditer coordinatePattern line) output.

Definition readGcodeLine (line : string) : result gcode_dict :=
  let typeOfLineMatch := search typeOfLinePattern line in
  match typeOfLineMatch with
  | Some m =>
      do c <- first_char (group m 0);
      if Ascii.eqb c ";" then Ok (Dict "comment" ∅)
      else
        match group m 0 with
        | Some t => processCoordinates line (Dict t ∅)
        | None => Raise TypeError
        end
  | None => processCoordinates line (Dict "unknown" ∅)
  end.

(** ** hasCoordinate, hasExtrusion, getPoint *)

Definition hasCoordinate (gcodeLine : gcode_dict) : bool :=
  if contains "X" gcodeLine || contains "Y" gcodeLine || contains "Z" gcodeLine
  then true else false.

(** [hasExtrusion] returns [True], [False] or, when the line has a
    coordinate and an [E] that is not positive, falls off its end and
    returns [None]. *)
Definition hasExtrusion (gcodeLine : gcode_dict) : option bool :=
  if hasCoordinate gcodeLine && contains "E" gcodeLine then
    match fields gcodeLine !! "E" with
    | Some e => if gtb e zero then Some true else None
    | None => None
    end
  else Some false.

(** The truth value of what [hasExtrusion] returns, as [if] takes it. *)
Definition truthy (o : option bool) : bool :=
  match o with Some true => true | _ => false end.

Definition point : Type := float * float * float.

(** [getPoint] returns a triple or the empty tuple, here [None]. *)
Definition getPoint (gcodeLine : gcode_dict) (currPoint : point)
    : option point :=
  let '(x, y, z) := currPoint in
  let hasPoint := false in
  let '(x, hasPoint) :=
    match fields gcodeLine !! "X" with
    | Some v => (v, true) | None => (x, hasPoint) end in
  let '(y, hasPoint) :=
    match fields gcodeLine !! "Y" with
    | Some v => (v, true) | None => (y, hasPoint) end in
  let '(z, hasPoint) :=
    match fields gcodeLine !! "Z" with
    | Some v => (v, true) | None => (z, hasPoint) end in
  if hasPoint then Some (x, y, z) else None.

(** ** readGcodeFile *)

(** [a == b] on triples of floats. *)
Definition point_eqb (a b : point) : bool :=
  let '(ax, ay, az) := a in
  let '(bx, by_, bz) := b in
  eqb ax bx && eqb ay by_ && eqb az bz.

(** The variables of the loop over the lines. *)
Record loop_state : Type := State {
  prevPoint : point;
  currPoint : point;
  pointList : list point;
  connectivity : list (Z * Z)
}.

Definition origin : point := (zero, zero, zero).

Definition initial_state : loop_state := State origin origin [] [].

(** The statements after the [continue] of a comment line: the position
    update, then the storing of the segment. *)
Definition updatePosition (st : loop_state) (currLine : gcode_dict)
    : loop_state :=
  match getPoint currLine (currPoint st) with
  | Some newPoint =>
      State (currPoint st) newPoint (pointList st) (connectivity st)
  | None => st
  end.

Definition storeSegment (st : loop_state) (currLine : gcode_dict)
    : loop_state :=
  if truthy (hasExtrusion currLine) then
    let pl :=
      match last (pointList st) with
      | Some q =>
          if negb (point_eqb (prevPoint st) q)
          then pointList st ++ [prevPoint st]
          else pointList st
      | None => pointList st ++ [prevPoint st]
      end in
    let pl := pl ++ [currPoint st] in
    State (prevPoint st) (currPoint st) pl
      (connectivity st
         ++ [(Z.of_nat (length pl) - 2, Z.of_nat (length pl) - 1)%Z])
  else st.

Definition processLine (st : loop_state) (line : string) : result loop_state :=
  do currLine <- readGcodeLine line;
  if String.eqb (ty currLine) "comment" then Ok st
  else Ok (storeSegment (updatePosition st currLine) currLine).

(** The loop of [readGcodeFile] over [lines], the result of
    [FileHandle.readlines()]. *)
Definition readLines (lines : list string) (st : loop_state)
    : result loop_state :=
  for_each processLine lines st.

Definition readGcodeFile (lines : list string)
    : result (list point * list (Z * Z)) :=
  do st <- readLines lines initial_state;
  Ok (pointList st, connectivity st).

(** ** write2VtkFile *)

(** [str(n)] of an integer. *)
Definition str_int (n : Z) : string := NilZero.string_of_int (Z.to_int n).

(** [str(l)] of a pair of integers. *)
Definition str_pair (l : Z * Z) : string :=
  "(" +:+ str_int (fst l) +:+ ", " +:+ str_int (snd l) +:+ ")".

(** [sep.join(xs)] *)
Fixpoint join (sep : string) (xs : list string) : string :=
  match xs with
  | [] => ""
  | [x] => x
  | x :: xs' => x +:+ sep +:+ join sep xs'
  end.

(** The newline character. *)
Definition nl : string := String (ascii_of_nat 10) "".

(** The items of a point, in the order a [for] visits them. *)
Definition items (p : point) : list float :=
  let '(x, y, z) := p in [x; y; z].

(** The literal [1e-3], the default of [scaling]. *)
Definition scaling_default : float := of_decimal false 1 3.

(** The class of a comma and the two parentheses. *)
Definition punctuation : regex := One (OneOf [","; "("; ")"]%char).

Section Writer.

(** [repr(e)] of a float is left open: the writer only concatenates it. *)
Variable repr_float : float -> string.

(** [f.write(s)] on the text written so far. *)
Definition write (f : string) (s : string) : string := f +:+ s.

(** The text of the file once [write2VtkFile] returns; the file is opened
    for writing, so it starts empty. [scaling] is [None] when the caller
    leaves it out. *)
Definition write2VtkFile (pointList : list point)
    (connectivity : list (Z * Z)) (scaling : option float) : string :=
  let scaling := default scaling_default scaling in
  let numPoints := length pointList in
  let numLines := length connectivity in
  let f := "" in
  let f := write f ("# vtk DataFile Version 2.0" +:+ nl) in
  let f := write f ("Some gcode" +:+ nl) in
  let f := write f ("ASCII" +:+ nl) in
  let f := write f ("DATASET POLYDATA" +:+ nl) in
  let f :=
    write f ("POINTS " +:+ str_int (Z.of_nat numPoints) +:+ " float" +:+ nl) in
  let f :=
    fold_left
      (fun f p =>
         let p := List.map (fun x => mul scaling x) (items p) in
         let tmp := join " " (List.map repr_float p) in
         write f (tmp +:+ nl))
      pointList f in
  let f :=
    write f ("LINES " +:+ str_int (Z.of_nat numLines) +:+ " "
             +:+ str_int (3 * Z.of_nat numLines) +:+ nl) in
  let f :=
    fold_left
      (fun f l =>
         let tmp := "2 " +:+ Re.sub punctuation "" (str_pair l) in
         write f (tmp +:+ nl))
      connectivity f in
  f.

End Writer.

(** ** write2TxtFile *)

(** [s[1:-1]]: [s] without its first and its last character. *)
Definition strip_ends (s : string) : string :=
  substring 1 (String.length s - 2) s.

Section TxtWriter.

(** [repr(e)] of a float, left open as for [write2VtkFile]. *)
Variable repr_float : float -> string.

(** [str(p)] of a point: its items by [repr], between parentheses. *)
Definition str_point (p : point) : string :=
  "(" +:+ join ", " (List.map repr_float (items p)) +:+ ")".

(** The text of the file once [write2TxtFile] returns. *)
Definition write2TxtFile (pointList : list point)
    (connectivity : list (Z * Z)) : string :=
  let f := "" in
  let pointsHeader :=
    "POINTS " +:+ str_int (Z.of_nat (length pointList)) +:+ nl in
  let f := write f pointsHeader in
  let f :=
    fold_left (fun f p => write f (strip_ends (str_point p) +:+ nl))
      pointList f in
  let linesHeader :=
    "LINES " +:+ str_int (Z.of_nat (length connectivity)) +:+ nl in
  let f := write f linesHeader in
  let f :=
    fold_left (fun f l => write f (strip_ends (str_pair l) +:+ nl))
      connectivity f in
  f.

End TxtWriter.

(** ** The default name of the output file *)

(** The split of [s] at its last [c]: what is before and what is after,
    [None] when [c] is not in [s]. This is [s[:i]] and [s[i+1:]] for
    [i = s.rfind(c)]. *)
Fixpoint rsplit (c : ascii) (s : string) : option (string * string) :=
  match s with
  | EmptyString => None
  | String a s' =>
      match rsplit c s' with
      | Some (before, after) => Some (String a before, after)
      | None => if Ascii.eqb a c then Some ("", s') else None
      end
  end.

Fixpoint has_char (c : ascii) (s : string) : bool :=
  match s with
  | String a s' => Ascii.eqb a c || has_char c s'
  | EmptyString => false
  end.

Fixpoint all_char (c : ascii) (s : string) : bool :=
  match s with
  | String a s' => Ascii.eqb a c && all_char c s'
  | EmptyString => true
  end.

(** [os.path.basename(p)] on POSIX: what follows the last slash. *)
Definition basename (p : string) : string :=
  match rsplit "/" p with
  | Some (_, after) => after
  | None => p
  end.

(** [os.path.splitext(p)] on POSIX: the split before the last point, when
    that point is after the last slash and the file name has a character
    other than a point before it; else [p] and the empty string. *)
Definition splitext (p : string) : string * string :=
  match rsplit "." p with
  | Some (root, ext) =>
      if negb (has_char "/" ext) && negb (all_char "." (basename root))
      then (root, "." +:+ ext)
      else (p, "")
  | None => (p, "")
  end.

(** [os.path.normcase(p)] on POSIX. *)
Definition normcase (p : string) : string := p.

(** The name of the output file, as the main program settles it:
    [arg] is [args.path2vtk], [None] when the command line has none. *)
Definition path2vtk (path2gcode : string) (arg : option string) : string :=
  let path2gcode := normcase path2gcode in
  match arg with
  | Some (String c s) => normcase (String c s)
  | _ =>
      let head := basename path2gcode in
      let head := fst (splitext head) in
      head +:+ "-gcode.vtk"
  end.

(** * Vocabulary of the statements *)

(** What the text looks like to a pattern of the kind [p*]: the digits (or
    other members of [p]) at its start. *)
Fixpoint run_length (p : cset) (s : string) : nat :=
  match s with
  | String c s' => if in_cset p c then S (run_length p s') else 0
  | EmptyString => 0
  end.

Fixpoint string_drop (n : nat) (s : string) : string :=
  match n, s with
  | S n', String _ s' => string_drop n' s'
  | _, _ => s
  end.

(** Digit strings. *)
Fixpoint all_digits (s : string) : bool :=
  match s with
  | String c s' => is_digit c && all_digits s'
  | EmptyString => true
  end.

Definition starts_with_digit (s : string) : bool :=
  match s with String c _ => is_digit c | EmptyString => false end.

Definition starts_with (c : ascii) (s : string) : bool :=
  match s with String c' _ => Ascii.eqb c' c | EmptyString => false end.

(** Whether the letter [G] occurs in [s] with a digit right after it. *)
Fixpoint has_G_digit (s : string) : bool :=
  match s with
  | String c s' => (Ascii.eqb c "G" && starts_with_digit s') || has_G_digit s'
  | EmptyString => false
  end.

(** Points without a NaN. *)
Definition no_nan (p : point) : Prop :=
  let '(x, y, z) := p in is_nan x = false /\ is_nan y = false /\ is_nan z = false.

(** Dictionaries without a NaN. *)
Definition no_nan_fields (d : gcode_dict) : Prop :=
  map_Forall (fun (_ : string) (v : float) => is_nan v = false) (fields d).

(** The value of an axis after a line: the entry of the line, or else the
    value the axis had. *)
Definition axis (key : string) (d : gcode_dict) (old : float) : float :=
  default old (fields d !! key).

(** Whether [previousPosition] is to be stored: the list is empty or its
    last point differs. *)
Definition needs_previous (pl : list point) (p : point) : bool :=
  match last pl with
  | None => true
  | Some q => negb (point_eqb p q)
  end.

(** A segment is a pair of consecutive indices of the point list. *)
Definition segment_ok (n : nat) (l : Z * Z) : Prop :=
  (snd l = fst l + 1 /\ 0 <= fst l /\ snd l <= Z.of_nat n - 1)%Z.

Definition state_ok (st : loop_state) : Prop :=
  no_nan (prevPoint st) /\ no_nan (currPoint st)
  /\ Forall (segment_ok (length (pointList st))) (connectivity st).

(** A match object made by [accept whole i] from position [j] on. *)
Definition match_from (whole : string) (i j : nat) (m : rmatch) : Prop :=
  m_string m = whole /\ m_start m = i /\ j <= m_end m.

Definition cont_from (whole : string) (i : nat) (k : cont rmatch) : Prop :=
  forall j s g m, k j s g = Some m -> match_from whole i j m.

Definition is_axis_letter (c : ascii) : bool :=
  in_cset (OneOf ["X"; "Y"; "Z"; "E"]%char) c.

(** The dictionary has an entry for one of [X], [Y], [Z]. *)
Definition gives_axis (d : gcode_dict) : Prop :=
  is_Some (fields d !! "X") \/ is_Some (fields d !! "Y")
  \/ is_Some (fields d !! "Z").

(** A line is an extrusion when its dictionary has an entry for one of
    [X], [Y], [Z] and an entry for [E] that is greater than zero. *)
Definition is_extrusion (d : gcode_dict) : Prop :=
  gives_axis d
  /\ exists e, fields d !! "E" = Some e /\ gtb e zero = true.

(** The characters of [s] that [keep] accepts. *)
Fixpoint string_filter (keep : ascii -> bool) (s : string) : string :=
  match s with
  | String c s' =>
      if keep c then String c (string_filter keep s') else string_filter keep s'
  | EmptyString => EmptyString
  end.

(** The text of a list of lines. *)
Definition text_of (ls : list string) : string :=
  fold_right String.append "" ls.

(** The row of a point and the row of a segment. *)
Definition point_row (repr_float : float -> string) (s : float) (p : point)
    : string :=
  let '(x, y, z) := p in
  repr_float (mul s x) +:+ " " +:+ repr_float (mul s y) +:+ " "
  +:+ repr_float (mul s z) +:+ nl.

Definition segment_row (l : Z * Z) : string :=
  "2 " +:+ str_int (fst l) +:+ " " +:+ str_int (snd l) +:+ nl.

Definition not_punctuation (c : ascii) : bool :=
  negb (in_cset (OneOf [","; "("; ")"]%char) c).

(** * Vocabulary of the further properties *)

(** Whether every character of [s] is in the set [p]. *)
Fixpoint all_in (p : cset) (s : string) : bool :=
  match s with
  | String c s' => in_cset p c && all_in p s'
  | EmptyString => true
  end.

(** The texts of a pattern, whatever the position: the text that a match
    of [r] spans is one of them. *)
Fixpoint lang (r : regex) (t : string) : Prop :=
  match r with
  | Bol => t = ""
  | One p => exists c, t = String c "" /\ in_cset p c = true
  | Seq r1 r2 => exists t1 t2, t = t1 +:+ t2 /\ lang r1 t1 /\ lang r2 t2
  | Alt r1 r2 => lang r1 t \/ lang r2 t
  | Opt r' => t = "" \/ lang r' t
  | Star p => all_in p t = true
  | Plus p => t <> "" /\ all_in p t = true
  | Group _ r' => lang r' t
  end.

(** Group 1 of the coordinate pattern: what follows the letter. *)
Definition numberPattern : regex :=
  Group 1
    (Seq (Group 2 (Opt (One (OneOf ["+"; "-"]%char))))
       (Group 3
          (Alt
             (Group 4
                (Seq (Group 5 (Plus Digit))
                     (Opt (Group 6 (Seq (One (Chr ".")) (Plus Digit))))))
             (Group 7
                (Seq (Opt (One (OneOf ["+"; "-"]%char)))
                   (Seq (Group 8 (Star Digit))
                        (Group 9 (Seq (One (Chr ".")) (Plus Digit))))))))).

Definition is_sign (c : ascii) : bool := in_cset (OneOf ["+"; "-"]%char) c.

(** An optional sign. *)
Definition sign_text (t : string) : Prop := t = "" \/ t = "+" \/ t = "-".

(** Digits, one at least. *)
Definition digits1 (t : string) : Prop := t <> "" /\ all_digits t = true.

(** The two shapes of the text after the letter of a coordinate: a sign
    and a numeral that starts with a digit, or two signs and a numeral
    with a point; each sign may be missing. *)
Definition plain_number (t : string) : Prop :=
  exists sg ip,
    sign_text sg /\ digits1 ip
    /\ (t = sg +:+ ip
        \/ exists fp, digits1 fp /\ t = sg +:+ ip +:+ "." +:+ fp).

Definition pointed_number (t : string) : Prop :=
  exists sg1 sg2 ip fp,
    sign_text sg1 /\ sign_text sg2 /\ all_digits ip = true /\ digits1 fp
    /\ t = sg1 +:+ sg2 +:+ ip +:+ "." +:+ fp.

(** Whether [t] starts with two signs. *)
Definition two_signs (t : string) : bool :=
  match t with
  | String a (String b _) => is_sign a && is_sign b
  | _ => false
  end.

(** Whether two signs stand side by side somewhere in [s]. *)
Fixpoint has_adjacent_signs (s : string) : bool :=
  match s with
  | String a s' => two_signs s || has_adjacent_signs s'
  | EmptyString => false
  end.

(** The match [m] of the coordinate pattern in [line] is the letter [c]
    and the text [t] after it, at the position that follows [before]. *)
Definition token_at (line : string) (m : rmatch) (c : ascii) (t : string)
    : Prop :=
  exists before after,
    line = before +:+ String c (t +:+ after)
    /\ m_start m = String.length before
    /\ group m 0 = Some (String c t) /\ group m 1 = Some t.

(** A match of the coordinate pattern in [line], as the loop sees it. *)
Definition is_token (line : string) (m : rmatch) : Prop :=
  exists c t,
    token_at line m c t /\ is_axis_letter c = true /\ lang numberPattern t.

(** Whether the text of group 1 of [m] starts with two signs. *)
Definition double_signed (m : rmatch) : bool :=
  match group m 1 with Some t => two_signs t | None => false end.

(** Whether the match [m] starts with the letter [c]. *)
Definition has_letter (c : ascii) (m : rmatch) : bool :=
  match group m 0 with
  | Some (String c' _) => Ascii.eqb c' c
  | _ => false
  end.

(** [float(m.group(1))], [None] when it raises. *)
Definition match_value (m : rmatch) : option float :=
  group m 1 ≫= float_of_string.

(** Whether a line is read and has none of [X], [Y], [Z]. *)
Definition is_inert (line : string) : bool :=
  match readGcodeLine line with
  | Ok d => negb (hasCoordinate d)
  | Raise _ => false
  end.

(** Whether a line is read and is an extrusion. *)
Definition extrudes (line : string) : bool :=
  match readGcodeLine line with
  | Ok d => truthy (hasExtrusion d)
  | Raise _ => false
  end.

(** The value of an axis after some lines: the entry of the last line that
    has one, or else [old]. *)
Definition axis_after (key : string) (lines : list string) (old : float)
    : float :=
  fold_left
    (fun v line =>
       match readGcodeLine line with
       | Ok d => axis key d v
       | Raise _ => v
       end)
    lines old.

(** Sizes of the two lists that go together. *)
Definition sizes_ok (st : loop_state) : Prop :=
  (pointList st = [] /\ connectivity st = [])
  \/ (length (connectivity st) + 1 <= length (pointList st)
      /\ length (pointList st) <= 2 * length (connectivity st)).

(** The segments of a state come in the order of their indices, the last
    one ends at the last point, and every point is an end of a segment. *)
Definition chain_ok (st : loop_state) : Prop :=
  (forall n, n < length (pointList st) ->
             exists l, l ∈ connectivity st
                       /\ (fst l = Z.of_nat n \/ snd l = Z.of_nat n))
  /\ (forall a b la lb,
         a < b -> connectivity st !! a = Some la ->
         connectivity st !! b = Some lb -> (fst la < fst lb)%Z)
  /\ (forall l, last (connectivity st) = Some l ->
                l = (Z.of_nat (length (pointList st)) - 2,
                     Z.of_nat (length (pointList st)) - 1)%Z).

(** * Properties *)

#[local] Arguments String.append !s1 s2 : simpl nomatch.

(** ** The model on the lines of [testLineReader] *)

Example float_of_tenth :
  float_of_string "0.1" = Some (S754_finite false 7205759403792794 (-56)).
Proof. vm_compute. reflexivity. Qed.

Example float_of_signed_fraction :
  float_of_string "-.319" = float_of_string "-0.319"
  /\ float_of_string "-.319" = Some (S754_finite true 5746593124524753 (-54)).
Proof. split; vm_compute; reflexivity. Qed.

Example float_of_empty : float_of_string "" = None.
Proof. reflexivity. Qed.

Example read_G1_line :
  exists d,
    readGcodeLine "G1 X4.4 Y-4.4 Z0.3 E0.33107 asdasdasd" = Ok d
    /\ ty d = "G1"
    /\ fields d !! "X" = float_of_string "4.4"
    /\ fields d !! "Y" = float_of_string "-4.4"
    /\ fields d !! "Z" = float_of_string "0.3"
    /\ fields d !! "E" = float_of_string "0.33107".
Proof. eexists. split; [vm_compute; reflexivity|]. now vm_compute. Qed.

Example read_G00_line : readGcodeLine "G00" = Ok (Dict "G00" ∅).
Proof. vm_compute. reflexivity. Qed.

Example read_TIME_line : readGcodeLine "TIME" = Ok (Dict "unknown" ∅).
Proof. vm_compute. reflexivity. Qed.

Example read_line_without_type :
  exists d,
    readGcodeLine "X4.4 Y-4.4 Z0.3 E0.33107 asdasdasd" = Ok d
    /\ ty d = "unknown"
    /\ fields d !! "X" = float_of_string "4.4"
    /\ fields d !! "E" = float_of_string "0.33107".
Proof. eexists. split; [vm_compute; reflexivity|]. now vm_compute. Qed.

(** A move without extrusion and then one with extrusion: two points and
    one segment. *)
Example read_two_moves :
  exists z x y,
    float_of_string "0.3" = Some z /\ float_of_string "4.4" = Some x
    /\ float_of_string "-4.4" = Some y
    /\ readGcodeFile ["G1 Z0.3"; "G1 X4.4 Y-4.4 E0.33107"]
       = Ok ([(zero, zero, z); (x, y, z)], [(0, 1)%Z]).
Proof. do 3 eexists. repeat split; vm_compute; reflexivity. Qed.

(** ** Strings *)

Lemma string_app_assoc (a b c : string) : (a +:+ b) +:+ c = a +:+ (b +:+ c).
Proof. induction a as [|x a IH]; simpl; [reflexivity | now rewrite IH]. Qed.

Lemma string_app_nil_r (a : string) : a +:+ "" = a.
Proof. induction a as [|x a IH]; simpl; [reflexivity | now rewrite IH]. Qed.

Lemma string_app_length (a b : string) :
  String.length (a +:+ b) = String.length a + String.length b.
Proof. induction a as [|x a IH]; simpl; [reflexivity | now rewrite IH]. Qed.

Lemma substring_prefix (a b : string) :
  substring 0 (String.length a) (a +:+ b) = a.
Proof.
  induction a as [|x a IH]; simpl.
  - destruct b; reflexivity.
  - now rewrite IH.
Qed.

Lemma substring_skip (pre s : string) (n : nat) :
  substring (String.length pre) n (pre +:+ s) = substring 0 n s.
Proof. induction pre as [|x pre IH]; simpl; [reflexivity | exact IH]. Qed.

(** ** The matcher *)

(** A greedy repetition before a continuation that cannot fail takes the
    whole run. *)
Lemma star_greedy {A} (p : cset) (k : cont A) :
  (forall j s g, k j s g <> None) ->
  forall s i g,
    star p k i s g = k (i + run_length p s) (string_drop (run_length p s) s) g.
Proof.
  intros Hk s. induction s as [|c s IH]; intros i g; simpl.
  - now rewrite Nat.add_0_r.
  - destruct (in_cset p c) eqn:Hc.
    + rewrite IH. replace (S i + run_length p s) with (i + S (run_length p s)) by lia.
      simpl. destruct (k _ _ g) eqn:E; [reflexivity | now apply Hk in E].
    + now rewrite Nat.add_0_r.
Qed.

Lemma run_length_digits (ds rest : string) :
  all_digits ds = true -> starts_with_digit rest = false ->
  run_length Digit (ds +:+ rest) = String.length ds
  /\ string_drop (String.length ds) (ds +:+ rest) = rest.
Proof.
  intros Hd Hr. induction ds as [|c ds IH]; simpl in *.
  - destruct rest as [|c r]; simpl in *; [auto | now rewrite Hr].
  - apply andb_true_iff in Hd as [Hc Hd]. rewrite Hc.
    destruct (IH Hd) as [-> ->]. auto.
Qed.

(** The match of the type pattern at a position where the text is [G],
    digits, and something that is no digit. *)
Lemma match_at_G (whole ds rest : string) (i : nat) :
  ds <> "" -> all_digits ds = true -> starts_with_digit rest = false ->
  match_at typeOfLinePattern whole i (String "G" (ds +:+ rest))
  = Some (Match whole i (i + 1 + String.length ds)
            [(2, (i, i + 1 + String.length ds))]).
Proof.
  intros Hne Hd Hr. destruct ds as [|d ds]; [congruence|].
  simpl in Hd. apply andb_true_iff in Hd as [Hc Hd].
  unfold match_at. simpl. destruct (i =? 0)%nat; simpl; rewrite Hc.
  all: rewrite star_greedy by discriminate.
  all: destruct (run_length_digits ds rest Hd Hr) as [-> ->].
  all: replace (S (S i) + String.length ds) with (i + 1 + S (String.length ds)) by lia.
  all: reflexivity.
Qed.

(** No match of the type pattern where the text starts with neither a
    semicolon at the start of the line nor [G] and a digit. *)
Lemma match_at_none (whole : string) (i : nat) (c : ascii) (s : string) :
  (i = 0 -> Ascii.eqb c ";" = false) ->
  Ascii.eqb c "G" && starts_with_digit s = false ->
  match_at typeOfLinePattern whole i (String c s) = None.
Proof.
  intros Hsemi HG. unfold match_at. simpl.
  assert (H1 : (if (i =? 0)%nat
                then if Ascii.eqb c ";"
                     then accept whole i (S i) s [(1, (i, S i))] else None
                else None) = None).
  { destruct (Nat.eqb_spec i 0) as [->|]; [now rewrite Hsemi | reflexivity]. }
  rewrite H1. simpl. rewrite orb_false_r.
  destruct (Ascii.eqb c "G"); [|reflexivity]. simpl in HG.
  destruct s as [|d s]; [reflexivity|]. simpl in HG. now rewrite HG.
Qed.

Lemma starts_with_digit_app (a b : string) :
  a <> "" -> starts_with_digit (a +:+ b) = starts_with_digit a.
Proof. destruct a; [congruence | reflexivity]. Qed.

Lemma G_digit_next (c : ascii) (pre tail : string) :
  Ascii.eqb c "G" && starts_with_digit pre = false ->
  Ascii.eqb c "G" && starts_with_digit (pre +:+ String "G" tail) = false.
Proof.
  destruct pre as [|x pre]; simpl; [|auto].
  intros _. now rewrite andb_false_r.
Qed.

(** [re.search] of the type pattern finds the first [G] that has digits
    after it, with all of them. *)
Lemma search_from_G (whole ds rest : string) :
  ds <> "" -> all_digits ds = true -> starts_with_digit rest = false ->
  forall pre i,
    (i = 0 -> starts_with ";" (pre +:+ String "G" (ds +:+ rest)) = false) ->
    has_G_digit pre = false ->
    search_from typeOfLinePattern whole i (pre +:+ String "G" (ds +:+ rest))
    = Some (Match whole (i + String.length pre)
              (i + String.length pre + 1 + String.length ds)
              [(2, (i + String.length pre,
                    i + String.length pre + 1 + String.length ds))]).
Proof.
  intros Hne Hd Hr pre. induction pre as [|c pre IH]; intros i Hsemi HG.
  - simpl String.append. simpl search_from.
    rewrite match_at_G by assumption. simpl. now rewrite Nat.add_0_r.
  - simpl in HG. apply orb_false_iff in HG as [HG1 HG2].
    simpl String.append. simpl search_from.
    rewrite match_at_none; [| exact Hsemi | now apply G_digit_next].
    rewrite IH by (assumption || lia).
    simpl String.length.
    now replace (S i + String.length pre) with (i + S (String.length pre)) by lia.
Qed.

Lemma search_from_none (whole : string) :
  forall s i,
    (i = 0 -> starts_with ";" s = false) ->
    has_G_digit s = false ->
    search_from typeOfLinePattern whole i s = None.
Proof.
  induction s as [|c s IH]; intros i Hsemi HG.
  - unfold search_from, match_at. simpl. now destruct (i =? 0)%nat.
  - simpl in HG. apply orb_false_iff in HG as [HG1 HG2].
    simpl search_from. rewrite match_at_none by assumption.
    apply IH; [lia | assumption].
Qed.

(** Splitting a text at the end of its leading digits. *)
Lemma digits_split (s : string) :
  exists ds rest,
    s = ds +:+ rest /\ all_digits ds = true /\ starts_with_digit rest = false
    /\ (starts_with_digit s = true -> ds <> "").
Proof.
  induction s as [|c s (ds & rest & -> & Hd & Hr & _)].
  - exists "", "". simpl. repeat split; auto; discriminate.
  - destruct (is_digit c) eqn:Hc.
    + exists (String c ds), rest. simpl. rewrite Hc, Hd.
      repeat split; auto; discriminate.
    + exists "", (String c (ds +:+ rest)). simpl. rewrite Hc.
      repeat split; auto; discriminate.
Qed.

(** A text that has a [G] with a digit after it splits at the first one. *)
Lemma has_G_digit_split (s : string) :
  has_G_digit s = true ->
  exists pre ds rest,
    s = pre +:+ String "G" (ds +:+ rest) /\ has_G_digit pre = false
    /\ ds <> "" /\ all_digits ds = true /\ starts_with_digit rest = false.
Proof.
  induction s as [|c s IH]; simpl; [discriminate|].
  destruct (Ascii.eqb c "G" && starts_with_digit s) eqn:Hhere.
  - intros _. apply andb_true_iff in Hhere as [Hc Hs].
    apply Ascii.eqb_eq in Hc as ->.
    destruct (digits_split s) as (ds & rest & -> & Hd & Hr & Hne).
    exists "", ds, rest. simpl. auto.
  - simpl. intros (pre & ds & rest & -> & Hpre & Hne & Hd & Hr)%IH.
    exists (String c pre), ds, rest. simpl. rewrite Hpre, orb_false_r.
    repeat split; auto.
    destruct pre as [|x pre]; simpl in *; [now rewrite andb_false_r | exact Hhere].
Qed.

(** ** The line reader *)

Lemma processMatch_ty (output output' : gcode_dict) (m : rmatch) :
  processMatch output m = Ok output' -> ty output' = ty output.
Proof.
  unfold processMatch, store, bind.
  destruct (first_char (group m 0)) as [c|]; [|discriminate].
  destruct (py_float (group m 1)) as [v|].
  - repeat match goal with
           | |- context [if ?b then _ else _] => destruct b
           end; intros [= <-]; reflexivity.
  - repeat match goal with
           | |- context [if ?b then _ else _] => destruct b
           end; (discriminate || (intros [= <-]; reflexivity)).
Qed.

Lemma for_each_processMatch_ty (ms : list rmatch) :
  forall output output',
    for_each processMatch ms output = Ok output' -> ty output' = ty output.
Proof.
  induction ms as [|m ms IH]; simpl; intros output output'.
  - now intros [= <-].
  - unfold bind. destruct (processMatch output m) as [o|] eqn:E; [|discriminate].
    intros H. apply IH in H. apply processMatch_ty in E. congruence.
Qed.

(** The coordinate phase never changes the type of the line. *)
Lemma processCoordinates_ty (line : string) (output output' : gcode_dict) :
  processCoordinates line output = Ok output' -> ty output' = ty output.
Proof. apply for_each_processMatch_ty. Qed.

(** A line that starts with a semicolon is a comment, and nothing else of
    it is read. *)
Lemma readGcodeLine_semicolon (rest : string) :
  readGcodeLine (String ";" rest) = Ok (Dict "comment" ∅).
Proof. reflexivity. Qed.

(** A line that does not start with a semicolon and whose first [G] with
    digits is [G ds]: its type is [G ds] and the coordinate phase runs. *)
Lemma readGcodeLine_G (pre ds rest : string) :
  let line := pre +:+ String "G" (ds +:+ rest) in
  starts_with ";" line = false -> has_G_digit pre = false ->
  ds <> "" -> all_digits ds = true -> starts_with_digit rest = false ->
  readGcodeLine line = processCoordinates line (Dict (String "G" ds) ∅).
Proof.
  intros line Hsemi Hpre Hne Hd Hr. unfold readGcodeLine, search. subst line.
  rewrite search_from_G by auto.
  unfold group, span. simpl fmap. rewrite substring_skip.
  replace (String.length pre + 1 + String.length ds - String.length pre)
    with (S (String.length ds)) by lia.
  simpl substring. rewrite substring_prefix. reflexivity.
Qed.

(** A line with neither a leading semicolon nor a [G] with digits: its
    type is unknown and the coordinate phase runs. *)
Lemma readGcodeLine_unknown (line : string) :
  starts_with ";" line = false -> has_G_digit line = false ->
  readGcodeLine line = processCoordinates line (Dict "unknown" ∅).
Proof.
  intros Hsemi HG. unfold readGcodeLine, search.
  now rewrite search_from_none by auto.
Qed.

(** The three cases of the type of a line. *)
Lemma readGcodeLine_cases (line : string) :
  (starts_with ";" line = true /\ readGcodeLine line = Ok (Dict "comment" ∅))
  \/ (starts_with ";" line = false /\ has_G_digit line = false
      /\ readGcodeLine line = processCoordinates line (Dict "unknown" ∅))
  \/ (starts_with ";" line = false /\ has_G_digit line = true
      /\ exists ds, readGcodeLine line
                    = processCoordinates line (Dict (String "G" ds) ∅)).
Proof.
  destruct (starts_with ";" line) eqn:Hsemi.
  - left. split; [reflexivity|]. destruct line as [|c rest]; [discriminate|].
    simpl in Hsemi. apply Ascii.eqb_eq in Hsemi as ->. reflexivity.
  - right. destruct (has_G_digit line) eqn:HG.
    + right. repeat split.
      destruct (has_G_digit_split line HG) as (pre & ds & rest & -> & ? & ? & ? & ?).
      exists ds. now apply readGcodeLine_G.
    + left. repeat split. now apply readGcodeLine_unknown.
Qed.

(** Only a comment line has the type of a comment, and a comment has no
    numeric entry. *)
Lemma readGcodeLine_comment (line : string) (d : gcode_dict) :
  readGcodeLine line = Ok d ->
  (ty d = "comment" <-> starts_with ";" line = true)
  /\ (ty d = "comment" -> fields d = ∅).
Proof.
  intros H.
  destruct (readGcodeLine_cases line)
    as [[Hs E] | [(Hs & HG & E) | (Hs & HG & ds & E)]];
    rewrite E in H.
  - injection H as <-. simpl. tauto.
  - apply processCoordinates_ty in H. simpl in H. rewrite H, Hs.
    split; [split|]; discriminate.
  - apply processCoordinates_ty in H. simpl in H. rewrite H, Hs.
    split; [split|]; discriminate.
Qed.

(** ** Floats that [float] returns *)

Local Open Scope Z_scope.

Lemma shr_1_nonneg (mrs : shr_record) : 0 <= shr_m mrs -> 0 <= shr_m (shr_1 mrs).
Proof. destruct mrs as [[|[p|p|]|[p|p|]] r s]; simpl; lia. Qed.

Lemma iter_shr_1_nonneg (p : positive) :
  forall mrs, 0 <= shr_m mrs -> 0 <= shr_m (SpecFloat.iter_pos shr_1 p mrs).
Proof.
  induction p as [p IH|p IH|]; simpl; intros mrs H.
  - apply IH, IH, shr_1_nonneg, H.
  - apply IH, IH, H.
  - apply shr_1_nonneg, H.
Qed.

Lemma shr_fexp_nonneg (m e : Z) (l : location) :
  0 <= m -> 0 <= shr_m (fst (shr_fexp prec emax m e l)).
Proof.
  intros H. unfold shr_fexp, shr.
  assert (H0 : 0 <= shr_m (shr_record_of_loc m l)) by (destruct l as [|[]]; exact H).
  destruct (fexp prec emax (Zdigits2 m + e) - e); simpl; auto.
  now apply iter_shr_1_nonneg.
Qed.

Lemma round_nearest_even_nonneg (m : Z) (l : location) :
  0 <= m -> 0 <= round_nearest_even m l.
Proof. destruct l as [|[]]; simpl; try destruct (Z.even m); lia. Qed.

Lemma binary_round_aux_not_nan (s : bool) (m e : Z) (l : location) :
  0 <= m -> is_nan (binary_round_aux prec emax s m e l) = false.
Proof.
  intros H. unfold binary_round_aux.
  pose proof (shr_fexp_nonneg m e l H) as H1.
  destruct (shr_fexp prec emax m e l) as [mrs' e']. simpl in H1.
  pose proof (shr_fexp_nonneg _ e' loc_Exact
                (round_nearest_even_nonneg _ (loc_of_shr_record mrs') H1)) as H2.
  destruct (shr_fexp prec emax _ e' loc_Exact) as [mrs'' e'']. simpl in H2.
  destruct (shr_m mrs''); [reflexivity | | lia].
  now destruct (e'' <=? emax - prec).
Qed.

Lemma of_decimal_not_nan (neg : bool) (m : Z) (k : nat) :
  is_nan (of_decimal neg m k) = false.
Proof.
  unfold of_decimal. destruct m as [|p|p]; try reflexivity.
  unfold SFdiv, SFdiv_core_binary.
  set (m' := match _ - _ - _ with Z0 => _ | Zpos _ => _ | Zneg _ => _ end).
  assert (Hm' : 0 <= m').
  { subst m'. destruct (_ - _ - _); try lia. now apply Z.shiftl_nonneg. }
  pose proof (Z.div_pos m' (Z.pos (Z.to_pos (10 ^ Z.of_nat k))) Hm' ltac:(lia)) as Hq.
  unfold Z.div in Hq. destruct (Z.div_eucl m' _) as [q r].
  now apply binary_round_aux_not_nan.
Qed.

(** [float] of a numeral is never a NaN. *)
Lemma float_of_string_not_nan (s : string) (x : float) :
  float_of_string s = Some x -> is_nan x = false.
Proof.
  unfold float_of_string. destruct (read_sign s) as [neg body].
  destruct (read_digits 0 0 body) as [[ip ni] r1].
  destruct r1 as [|c r].
  - destruct (0 <? ni)%nat; [|discriminate]. intros [= <-].
    apply of_decimal_not_nan.
  - destruct (Ascii.eqb_spec c "."%char) as [->|Hc].
    + destruct (read_digits ip ni r) as [[m n] r2].
      destruct r2; [|discriminate].
      destruct (0 <? n)%nat; [|discriminate]. intros [= <-].
      apply of_decimal_not_nan.
    + destruct c as [[] [] [] [] [] [] [] []]; try discriminate. congruence.
Qed.

Lemma eqb_refl (x : float) : is_nan x = false -> eqb x x = true.
Proof.
  unfold eqb, SFeqb, SFcompare.
  destruct x as [s|s| |s m e]; try discriminate; intros _.
  - reflexivity.
  - now destruct s.
  - rewrite Z.compare_refl.
    change (Pos.compare_cont Eq m m) with (Pos.compare m m).
    rewrite Pos.compare_refl. now destruct s.
Qed.

Local Close Scope Z_scope.

Lemma point_eqb_refl (p : point) : no_nan p -> point_eqb p p = true.
Proof.
  destruct p as [[x y] z]. intros (Hx & Hy & Hz). unfold point_eqb.
  now rewrite !eqb_refl.
Qed.

Lemma store_no_nan (key : string) (m : rmatch) (d d' : gcode_dict) :
  no_nan_fields d -> store key m d = Ok d' -> no_nan_fields d'.
Proof.
  unfold store, py_float, bind.
  destruct (group m 1) as [s|]; [|discriminate].
  destruct (float_of_string s) as [x|] eqn:E; [|discriminate].
  intros H [= <-]. apply map_Forall_insert_2; [|exact H].
  now apply float_of_string_not_nan in E.
Qed.

Lemma processMatch_no_nan (d d' : gcode_dict) (m : rmatch) :
  no_nan_fields d -> processMatch d m = Ok d' -> no_nan_fields d'.
Proof.
  unfold processMatch. intros H.
  destruct (first_char (group m 0)) as [c|]; [|discriminate]. simpl.
  destruct (Ascii.eqb c "F").
  - destruct (store "F" m d) as [d1|] eqn:E1; [|discriminate]. simpl.
    apply store_no_nan in E1; [|exact H].
    repeat match goal with
           | |- context [if ?b then _ else _] => destruct b
           end; try (now apply store_no_nan); now intros [= <-].
  - simpl.
    repeat match goal with
           | |- context [if ?b then _ else _] => destruct b
           end; try (now apply store_no_nan); now intros [= <-].
Qed.

Lemma for_each_no_nan (ms : list rmatch) :
  forall d d', no_nan_fields d -> for_each processMatch ms d = Ok d' ->
               no_nan_fields d'.
Proof.
  induction ms as [|m ms IH]; simpl; intros d d' H.
  - now intros [= <-].
  - destruct (processMatch d m) as [d1|] eqn:E; [|discriminate]. simpl.
    apply IH. now apply processMatch_no_nan in E.
Qed.

(** The line reader stores no NaN. *)
Lemma readGcodeLine_no_nan (line : string) (d : gcode_dict) :
  readGcodeLine line = Ok d -> no_nan_fields d.
Proof.
  intros H.
  destruct (readGcodeLine_cases line)
    as [[Hs E] | [(Hs & HG & E) | (Hs & HG & ds & E)]];
    rewrite E in H.
  - injection H as <-. apply map_Forall_empty.
  - apply for_each_no_nan in H; [exact H | apply map_Forall_empty].
  - apply for_each_no_nan in H; [exact H | apply map_Forall_empty].
Qed.

(** ** Positions *)

Lemma hasCoordinate_spec (d : gcode_dict) :
  hasCoordinate d = contains "X" d || contains "Y" d || contains "Z" d.
Proof. unfold hasCoordinate. now destruct (_ || _). Qed.

Lemma getPoint_spec (d : gcode_dict) (x y z : float) :
  getPoint d (x, y, z)
  = if hasCoordinate d
    then Some (axis "X" d x, axis "Y" d y, axis "Z" d z)
    else None.
Proof.
  rewrite hasCoordinate_spec. unfold getPoint, axis, contains.
  destruct (fields d !! "X"), (fields d !! "Y"), (fields d !! "Z"); reflexivity.
Qed.

Lemma hasExtrusion_spec (d : gcode_dict) :
  truthy (hasExtrusion d) = true
  <-> hasCoordinate d = true
      /\ exists e, fields d !! "E" = Some e /\ gtb e zero = true.
Proof.
  unfold hasExtrusion, contains.
  destruct (hasCoordinate d); simpl.
  - destruct (fields d !! "E") as [e|]; simpl.
    + destruct (gtb e zero) eqn:He; simpl.
      * split; [eauto | reflexivity].
      * split; [discriminate|]. intros [_ (e' & [= <-] & H)]. congruence.
    + split; [discriminate|]. now intros [_ (e' & [=] & _)].
  - split; [discriminate | now intros [[=] _]].
Qed.

(** ** The loop over the lines *)

Lemma storeSegment_spec (st : loop_state) (d : gcode_dict) :
  storeSegment st d
  = if truthy (hasExtrusion d) then
      let pl := (if needs_previous (pointList st) (prevPoint st)
                 then pointList st ++ [prevPoint st] else pointList st)
                ++ [currPoint st] in
      State (prevPoint st) (currPoint st) pl
        (connectivity st
           ++ [(Z.of_nat (length pl) - 2, Z.of_nat (length pl) - 1)%Z])
    else st.
Proof.
  unfold storeSegment, needs_previous.
  destruct (truthy (hasExtrusion d)); [|reflexivity].
  destruct (last (pointList st)) as [q|]; [|reflexivity].
  now destruct (negb (point_eqb (prevPoint st) q)).
Qed.

(** What a line that is no comment does to the state. *)
Lemma processLine_not_comment (st : loop_state) (line : string) (d : gcode_dict) :
  readGcodeLine line = Ok d -> ty d <> "comment" ->
  processLine st line = Ok (storeSegment (updatePosition st d) d).
Proof.
  intros H Hty. unfold processLine. rewrite H. simpl.
  now apply String.eqb_neq in Hty as ->.
Qed.

Lemma processLine_comment (st : loop_state) (line : string) (d : gcode_dict) :
  readGcodeLine line = Ok d -> ty d = "comment" ->
  processLine st line = Ok st /\ fields d = ∅.
Proof.
  intros H Hty. split.
  - unfold processLine. rewrite H. simpl. now rewrite Hty.
  - now apply (readGcodeLine_comment line d H).
Qed.

Lemma empty_no_coordinate (d : gcode_dict) :
  fields d = ∅ -> hasCoordinate d = false /\ truthy (hasExtrusion d) = false.
Proof.
  intros H. unfold hasExtrusion. rewrite hasCoordinate_spec. unfold contains.
  now rewrite H, !lookup_empty.
Qed.

(** The loop body always returns once the line is read, and then it is
    the position update followed by the storing of the segment. *)
Lemma processLine_spec (st : loop_state) (line : string) (d : gcode_dict) :
  readGcodeLine line = Ok d ->
  processLine st line = Ok (storeSegment (updatePosition st d) d).
Proof.
  intros H. destruct (String.eqb_spec (ty d) "comment") as [Hty|Hty].
  - destruct (processLine_comment st line d H Hty) as [-> Hf].
    destruct (empty_no_coordinate d Hf) as [Hc He].
    unfold storeSegment, updatePosition. rewrite He.
    destruct (currPoint st) as [[x y] z]. rewrite getPoint_spec, Hc.
    reflexivity.
  - now apply processLine_not_comment.
Qed.

Lemma for_each_app {A S} (body : S -> A -> result S) (xs ys : list A) (st : S) :
  for_each body (xs ++ ys) st
  = do st' <- for_each body xs st; for_each body ys st'.
Proof.
  revert st. induction xs as [|x xs IH]; intros st; simpl; [reflexivity|].
  destruct (body st x); simpl; [apply IH | reflexivity].
Qed.

(** ** The invariant of the loop *)

Lemma initial_state_ok : state_ok initial_state.
Proof. repeat split. constructor. Qed.

Lemma axis_no_nan (key : string) (d : gcode_dict) (old : float) :
  no_nan_fields d -> is_nan old = false -> is_nan (axis key d old) = false.
Proof.
  intros Hd Ho. unfold axis. destruct (fields d !! key) as [v|] eqn:E; [|exact Ho].
  exact (Hd key v E).
Qed.

Lemma updatePosition_ok (st : loop_state) (d : gcode_dict) :
  no_nan_fields d -> state_ok st -> state_ok (updatePosition st d).
Proof.
  intros Hd (Hp & Hc & Hs). unfold updatePosition.
  destruct (currPoint st) as [[x y] z] eqn:Ec. rewrite getPoint_spec.
  destruct (hasCoordinate d); [|unfold state_ok; now rewrite Ec].
  destruct Hc as (Hx & Hy & Hz).
  repeat split; simpl; auto using axis_no_nan.
Qed.

Lemma segment_ok_mono (n n' : nat) (l : Z * Z) :
  n <= n' -> segment_ok n l -> segment_ok n' l.
Proof. unfold segment_ok. lia. Qed.

Lemma storeSegment_ok (st : loop_state) (d : gcode_dict) :
  state_ok st -> state_ok (storeSegment st d).
Proof.
  intros (Hp & Hc & Hs). rewrite storeSegment_spec.
  destruct (truthy (hasExtrusion d)); [|now repeat split].
  repeat split; simpl; auto.
  set (pl := (if needs_previous _ _ then _ else _) ++ [currPoint st]).
  assert (Hlen : length (pointList st) + 1 <= length pl /\ 2 <= length pl).
  { subst pl. unfold needs_previous.
    destruct (pointList st) as [|p0 pl0] eqn:Epl; simpl last.
    - simpl. lia.
    - destruct (last (p0 :: pl0)) as [q|]; [destruct (negb _)|];
        rewrite ?length_app; simpl; lia. }
  apply Forall_app. split.
  - eapply Forall_impl; [exact Hs|]. intros l. apply segment_ok_mono. lia.
  - constructor; [|constructor]. unfold segment_ok. simpl. lia.
Qed.

Lemma processLine_ok (st st' : loop_state) (line : string) :
  state_ok st -> processLine st line = Ok st' -> state_ok st'.
Proof.
  intros Hst H. destruct (readGcodeLine line) as [d|e] eqn:E.
  - rewrite (processLine_spec st line d E) in H. injection H as <-.
    apply storeSegment_ok, updatePosition_ok; [|exact Hst].
    now apply readGcodeLine_no_nan in E.
  - unfold processLine in H. now rewrite E in H.
Qed.

Lemma readLines_ok (lines : list string) :
  forall st st', state_ok st -> readLines lines st = Ok st' -> state_ok st'.
Proof.
  unfold readLines. induction lines as [|line lines IH]; simpl; intros st st' Hst.
  - now intros [= <-].
  - destruct (processLine st line) as [st1|] eqn:E; [|discriminate]. simpl.
    apply IH. now apply processLine_ok in E.
Qed.

(** ** The matches of the coordinate pattern *)

Lemma match_from_le (whole : string) (i j j' : nat) (m : rmatch) :
  j <= j' -> match_from whole i j' m -> match_from whole i j m.
Proof. unfold match_from. intuition lia. Qed.

Lemma star_from (whole : string) (i : nat) (p : cset) (k : cont rmatch) :
  cont_from whole i k -> cont_from whole i (star p k).
Proof.
  intros Hk j s. revert j. induction s as [|c s IH]; intros j g m; simpl.
  - apply Hk.
  - destruct (in_cset p c); [|apply Hk].
    destruct (star p k (S j) s g) eqn:E; simpl.
    + intros [= <-]. apply IH in E. eapply match_from_le; [|exact E]. lia.
    + apply Hk.
Qed.

(** The matcher never ends a match before the position it started from. *)
Lemma exec_from (whole : string) (i : nat) (r : regex) :
  forall k, cont_from whole i k -> cont_from whole i (exec r k).
Proof.
  induction r as [|p|r1 IH1 r2 IH2|r1 IH1 r2 IH2|r IH|p|p|n r IH];
    intros k Hk j s g m; simpl.
  - destruct (j =? 0)%nat; [apply Hk | discriminate].
  - destruct s as [|c s]; [discriminate|].
    destruct (in_cset p c); [|discriminate].
    intros H. apply Hk in H. eapply match_from_le; [|exact H]. lia.
  - apply IH1, IH2, Hk.
  - destruct (exec r1 k j s g) eqn:E; simpl.
    + intros [= <-]. now apply (IH1 k Hk) in E.
    + now apply IH2.
  - destruct (exec r k j s g) eqn:E; simpl.
    + intros [= <-]. now apply (IH k Hk) in E.
    + apply Hk.
  - now apply star_from.
  - destruct s as [|c s]; [discriminate|].
    destruct (in_cset p c); [|discriminate].
    intros H. apply (star_from whole i p k Hk) in H.
    eapply match_from_le; [|exact H]. lia.
  - apply IH. intros j' s' g' m' H. now apply Hk in H.
Qed.

Lemma accept_from (whole : string) (i : nat) : cont_from whole i (accept whole i).
Proof. intros j s g m [= <-]. repeat split. simpl. lia. Qed.

(** The text of a match of the coordinate pattern starts with one of the
    four letters of its class. *)
Lemma coordinate_match_letter (pre s : string) (m : rmatch) :
  match_at coordinatePattern (pre +:+ s) (String.length pre) s = Some m ->
  exists c, first_char (group m 0) = Ok c /\ is_axis_letter c = true.
Proof.
  unfold match_at, coordinatePattern.
  match goal with |- context [Seq (One _) ?R] => generalize R end.
  intros number. cbn [exec].
  destruct s as [|c s]; [discriminate|].
  fold (is_axis_letter c). destruct (is_axis_letter c) eqn:Hc; [|discriminate].
  intros H. apply exec_from with (whole := pre +:+ String c s) (i := String.length pre) in H;
    [|apply accept_from].
  destruct H as (Hs & Hi & Hj). exists c. split; [|exact Hc].
  unfold group, span. simpl. rewrite Hs, Hi, substring_skip.
  destruct (m_end m - String.length pre) eqn:E; [lia | reflexivity].
Qed.

Lemma finditer_from_letters :
  forall s pre skip,
    Forall (fun m => exists c, first_char (group m 0) = Ok c
                               /\ is_axis_letter c = true)
           (finditer_from coordinatePattern (pre +:+ s) (String.length pre) s skip).
Proof.
  induction s as [|c s IH]; intros pre skip.
  - destruct skip; simpl; constructor.
  - assert (Hnext : forall k,
               Forall (fun m => exists c, first_char (group m 0) = Ok c
                                          /\ is_axis_letter c = true)
                      (finditer_from coordinatePattern (pre +:+ String c s)
                         (S (String.length pre)) s k)).
    { intros k. specialize (IH (pre +:+ String c "") k).
      rewrite string_app_assoc, string_app_length in IH. simpl in IH.
      now rewrite Nat.add_1_r in IH. }
    destruct skip; simpl; [|apply Hnext].
    destruct (match_at coordinatePattern (pre +:+ String c s) (String.length pre)
                (String c s)) eqn:E; [|apply Hnext].
    constructor; [|apply Hnext]. now apply coordinate_match_letter in E.
Qed.

Lemma store_other (key key' : string) (m : rmatch) (d d' : gcode_dict) :
  key <> key' -> store key m d = Ok d' -> fields d' !! key' = fields d !! key'.
Proof.
  unfold store, bind. destruct (py_float (group m 1)); [|discriminate].
  intros Hne [= <-]. simpl. now apply lookup_insert_ne.
Qed.

Lemma processMatch_no_F (d d' : gcode_dict) (m : rmatch) :
  (exists c, first_char (group m 0) = Ok c /\ is_axis_letter c = true) ->
  processMatch d m = Ok d' -> fields d' !! "F" = fields d !! "F".
Proof.
  intros (c & Hc & Hl). unfold processMatch. rewrite Hc. simpl.
  assert (HF : Ascii.eqb c "F" = false).
  { unfold is_axis_letter in Hl. simpl in Hl.
    repeat (apply orb_true_iff in Hl as [Hl|Hl]);
      try (apply Ascii.eqb_eq in Hl as ->; reflexivity). discriminate. }
  rewrite HF. simpl.
  repeat match goal with
         | |- context [if ?b then _ else _] => destruct b
         end;
    try (apply store_other; discriminate). now intros [= <-].
Qed.

(** No line gives an entry for [F]. *)
Lemma readGcodeLine_never_stores_F (line : string) (d : gcode_dict) :
  readGcodeLine line = Ok d -> fields d !! "F" = None.
Proof.
  assert (Hloop : forall ms d0 d1,
             Forall (fun m => exists c, first_char (group m 0) = Ok c
                                        /\ is_axis_letter c = true) ms ->
             for_each processMatch ms d0 = Ok d1 ->
             fields d1 !! "F" = fields d0 !! "F").
  { induction ms as [|m ms IH]; simpl; intros d0 d1 Hms.
    - now intros [= <-].
    - apply Forall_cons in Hms as [Hm Hms].
      destruct (processMatch d0 m) as [d2|] eqn:E; [|discriminate]. simpl.
      intros H. rewrite (IH _ _ Hms H). now apply processMatch_no_F in E. }
  pose proof (finditer_from_letters line "" 0) as Hms.
  intros H.
  destruct (readGcodeLine_cases line)
    as [[Hs E] | [(Hs & HG & E) | (Hs & HG & ds & E)]];
    rewrite E in H.
  - now injection H as <-.
  - now apply (Hloop _ _ _ Hms) in H.
  - now apply (Hloop _ _ _ Hms) in H.
Qed.

Lemma updatePosition_lists (st : loop_state) (d : gcode_dict) :
  pointList (updatePosition st d) = pointList st
  /\ connectivity (updatePosition st d) = connectivity st.
Proof. unfold updatePosition. now destruct (getPoint d (currPoint st)). Qed.

Lemma updatePosition_spec (st : loop_state) (d : gcode_dict) :
  updatePosition st d
  = if hasCoordinate d then
      let '(x, y, z) := currPoint st in
      State (currPoint st) (axis "X" d x, axis "Y" d y, axis "Z" d z)
        (pointList st) (connectivity st)
    else st.
Proof.
  unfold updatePosition. destruct (currPoint st) as [[x y] z].
  rewrite getPoint_spec. now destruct (hasCoordinate d).
Qed.

Lemma storeSegment_positions (st : loop_state) (d : gcode_dict) :
  prevPoint (storeSegment st d) = prevPoint st
  /\ currPoint (storeSegment st d) = currPoint st.
Proof. rewrite storeSegment_spec. now destruct (truthy (hasExtrusion d)). Qed.

Lemma empty_points_no_segment (st : loop_state) :
  state_ok st -> pointList st = [] -> connectivity st = [].
Proof.
  intros (_ & _ & H) Hpl. rewrite Hpl in H.
  destruct (connectivity st) as [|l c]; [reflexivity|].
  apply Forall_cons in H as [H _]. unfold segment_ok in H. simpl in H. lia.
Qed.

(** ** Results on the line reader and the loop over the lines *)

(** C1. The line [G0 F7200 X68.135 Y-.319] is read as a line of type [G0]
    with [X = 68.135] and [Y = -0.319], but with no entry for [F]: the class
    of the coordinate pattern has the letters [X], [Y], [Z] and [E] only, so
    the branch of the loop that stores [F] is never taken. *)
Theorem readGcodeLine_feed_rate_missing :
  exists d,
    readGcodeLine "G0 F7200 X68.135 Y-.319" = Ok d
    /\ ty d = "G0"
    /\ fields d !! "X" = float_of_string "68.135"
    /\ fields d !! "Y" = float_of_string "-0.319"
    /\ fields d !! "F" = None
    /\ float_of_string "7200" = Some (S754_finite false 7916483719987200 (-40)).
Proof. eexists. split; [vm_compute; reflexivity|]. now vm_compute. Qed.

(** C6. A bare axis letter is skipped: [G0 F7200 X Y-.319] is read as a
    line of type [G0] with [Y = -0.319] and no [X]. But the line reader can
    raise: on [G1 X+-.5 Y2] the coordinate pattern matches [X+-.5], whose
    group 1 is [+-.5], and [float] raises [ValueError] on it. *)
Theorem readGcodeLine_raises_on_double_sign :
  readGcodeLine "G0 F7200 X Y-.319"
  = Ok (Dict "G0" {[ "Y" := S754_finite true 5746593124524753 (-54) ]})
  /\ float_of_string "-.319" = Some (S754_finite true 5746593124524753 (-54))
  /\ (fun m => group m 1) <$> head (finditer coordinatePattern "G1 X+-.5 Y2")
     = Some (Some "+-.5")
  /\ float_of_string "+-.5" = None
  /\ readGcodeLine "G1 X+-.5 Y2" = Raise ValueError.
Proof. repeat split; vm_compute; reflexivity. Qed.

(** C8. A line that starts with [;] is read as a comment with no numeric
    entry, whatever follows the semicolon, and the loop over the lines
    leaves its whole state as it was. *)
Theorem comment_line_skipped (rest : string) (st : loop_state) :
  readGcodeLine (String ";" rest) = Ok (Dict "comment" ∅)
  /\ processLine st (String ";" rest) = Ok st.
Proof. split; reflexivity. Qed.

(** C5, as the code has it. The command code that gives a line its type is
    the letter [G] with digits, no other letter. For a line that does not
    start with [;]: if [G ds] is the first [G] with digits after it, with
    all its digits, the type is [G ds]; if there is none, the type is
    [unknown], and only then; in both cases the coordinate phase runs. *)
Theorem line_type_is_first_G_code (line : string) :
  starts_with ";" line = false ->
  (forall pre ds rest,
      line = pre +:+ String "G" (ds +:+ rest) ->
      has_G_digit pre = false -> ds <> "" -> all_digits ds = true ->
      starts_with_digit rest = false ->
      readGcodeLine line = processCoordinates line (Dict (String "G" ds) ∅))
  /\ (has_G_digit line = false ->
      readGcodeLine line = processCoordinates line (Dict "unknown" ∅))
  /\ (forall d, readGcodeLine line = Ok d ->
                (ty d = "unknown" <-> has_G_digit line = false)).
Proof.
  intros Hsemi. split; [|split].
  - intros pre ds rest -> Hpre Hne Hd Hr. now apply readGcodeLine_G.
  - now apply readGcodeLine_unknown.
  - intros d H.
    destruct (readGcodeLine_cases line)
      as [[Hs E] | [(Hs & HG & E) | (Hs & HG & ds & E)]];
      [congruence | |]; rewrite E in H; apply processCoordinates_ty in H;
      simpl in H; rewrite H, HG; split; (reflexivity || discriminate).
Qed.

Lemma line_type_is_first_G_code_witness :
  starts_with ";" "N10 G28 X1" = false
  /\ readGcodeLine "N10 G28 X1"
     = processCoordinates "N10 G28 X1" (Dict "G28" ∅).
Proof.
  split; [reflexivity|].
  apply (proj1 (line_type_is_first_G_code "N10 G28 X1" eq_refl) "N10 " "28" " X1");
    (reflexivity || discriminate).
Defined.

(** C5, as stated, fails: [M104 S200] does not start with [;] and has the
    command code [M104], a letter and digits, yet its type is [unknown]. *)
Lemma line_type_M104_unknown :
  starts_with ";" "M104 S200" = false
  /\ exists d, readGcodeLine "M104 S200" = Ok d
               /\ ty d = "unknown" /\ ty d <> "M104".
Proof.
  split; [reflexivity|]. eexists. split; [vm_compute; reflexivity|].
  split; [reflexivity | discriminate].
Qed.

(** C10. A line is a comment exactly when its first character is [;], so
    a [;] after a space does not make one, and the rest of such a line is
    read for coordinates. A [G] with digits gives the type wherever it is:
    when the first one comes after the text [pre], the search stops at the
    position after [pre] and the type is that [G] with its digits. *)
Theorem comment_at_start_G_code_anywhere :
  (forall line d,
      readGcodeLine line = Ok d ->
      (ty d = "comment" <-> starts_with ";" line = true))
  /\ readGcodeLine " ; X1"
     = Ok (Dict "unknown" {[ "X" := S754_finite false 4503599627370496 (-52) ]})
  /\ (forall pre ds rest,
         let line := pre +:+ String "G" (ds +:+ rest) in
         starts_with ";" line = false -> has_G_digit pre = false ->
         ds <> "" -> all_digits ds = true -> starts_with_digit rest = false ->
         (exists m, search typeOfLinePattern line = Some m
                    /\ m_start m = String.length pre
                    /\ group m 0 = Some (String "G" ds))
         /\ forall d, readGcodeLine line = Ok d -> ty d = String "G" ds).
Proof.
  split; [|split].
  - intros line d H. now apply readGcodeLine_comment.
  - vm_compute. reflexivity.
  - intros pre ds rest line Hsemi Hpre Hne Hd Hr. split.
    + eexists. unfold search. subst line.
      rewrite search_from_G by auto. split; [reflexivity|].
      split; [reflexivity|]. unfold group, span. simpl fmap.
      rewrite substring_skip.
      replace (String.length pre + 1 + String.length ds - String.length pre)
        with (S (String.length ds)) by lia.
      simpl substring. now rewrite substring_prefix.
    + intros d H. subst line. rewrite readGcodeLine_G in H by assumption.
      now apply processCoordinates_ty in H.
Qed.

Lemma comment_at_start_G_code_anywhere_witness :
  readGcodeLine "  G1 X2" = Ok (Dict "G1" {[ "X" := S754_finite false 4503599627370496 (-51) ]})
  /\ ("G1" = "comment" <-> starts_with ";" "  G1 X2" = true).
Proof.
  assert (H : readGcodeLine "  G1 X2"
              = Ok (Dict "G1" {[ "X" := S754_finite false 4503599627370496 (-51) ]}))
    by (vm_compute; reflexivity).
  split; [exact H|].
  exact (proj1 comment_at_start_G_code_anywhere "  G1 X2" _ H).
Defined.

Lemma hasCoordinate_fields (d : gcode_dict) :
  hasCoordinate d = true <-> gives_axis d.
Proof.
  rewrite hasCoordinate_spec. unfold contains, gives_axis.
  destruct (fields d !! "X"), (fields d !! "Y"), (fields d !! "Z"); simpl;
    split; intros H;
    first [ reflexivity
          | discriminate H
          | left; now eexists
          | right; left; now eexists
          | right; right; now eexists
          | destruct H as [[? ?]|[[? ?]|[? ?]]]; discriminate ].
Qed.

Lemma is_extrusion_spec (d : gcode_dict) :
  truthy (hasExtrusion d) = true <-> is_extrusion d.
Proof.
  unfold is_extrusion. rewrite hasExtrusion_spec, hasCoordinate_fields.
  reflexivity.
Qed.

(** C3. The loop stores points and a segment for a line exactly when the
    dictionary of the line has an entry for one of [X], [Y], [Z] and an
    entry for [E] that is greater than zero: [hasExtrusion] is true for
    these lines and no others, then the point list grows and the
    connectivity list gets one more pair, and otherwise both lists stay as
    they are. A line with no entry for [X], none for [Y] and none for [Z]
    changes nothing at all, whatever its [E]. *)
Theorem extrusion_iff_coordinate_and_positive_E
    (st : loop_state) (line : string) (d : gcode_dict) :
  readGcodeLine line = Ok d ->
  (truthy (hasExtrusion d) = true <-> is_extrusion d)
  /\ exists st',
      processLine st line = Ok st'
      /\ (is_extrusion d ->
          length (pointList st) < length (pointList st')
          /\ length (connectivity st') = S (length (connectivity st)))
      /\ (~ is_extrusion d ->
          pointList st' = pointList st /\ connectivity st' = connectivity st)
      /\ (fields d !! "X" = None -> fields d !! "Y" = None ->
          fields d !! "Z" = None -> st' = st).
Proof.
  intros H. split; [apply is_extrusion_spec|].
  exists (storeSegment (updatePosition st d) d).
  split; [now apply processLine_spec|].
  rewrite storeSegment_spec.
  destruct (updatePosition_lists st d) as [Hpl Hc].
  pose proof (is_extrusion_spec d) as Hx.
  destruct (truthy (hasExtrusion d)) eqn:E; cbv zeta.
  - assert (Hd : is_extrusion d) by now apply Hx.
    split; [intros _ | split; [intros Hn; contradiction |]].
    + simpl. rewrite Hpl, Hc, !length_app. simpl.
      destruct (needs_previous _ _); rewrite ?length_app; simpl; lia.
    + intros HX HY HZ. destruct Hd as [[G|[G|G]] _];
        rewrite ?HX, ?HY, ?HZ in G; now destruct G.
  - assert (Hn : ~ is_extrusion d) by (intros Hd; apply Hx in Hd; discriminate).
    split; [intros Hd; contradiction | split; [now intros _ |]].
    intros HX HY HZ.
    assert (Hno : hasCoordinate d = false).
    { destruct (hasCoordinate d) eqn:Hco; [|reflexivity].
      apply hasCoordinate_fields in Hco as [G|[G|G]];
        rewrite ?HX, ?HY, ?HZ in G; now destruct G. }
    rewrite updatePosition_spec. now rewrite Hno.
Qed.

Lemma extrusion_iff_coordinate_and_positive_E_witness :
  exists d,
    readGcodeLine "G1 E5 F300" = Ok d
    /\ fields d !! "X" = None /\ fields d !! "Y" = None
    /\ fields d !! "Z" = None
    /\ (exists e, fields d !! "E" = Some e /\ gtb e zero = true)
    /\ truthy (hasExtrusion d) = false
    /\ exists st',
        processLine initial_state "G1 E5 F300" = Ok st'
        /\ st' = initial_state.
Proof.
  eexists. split; [vm_compute; reflexivity|].
  destruct (extrusion_iff_coordinate_and_positive_E initial_state "G1 E5 F300" _
              ltac:(vm_compute; reflexivity))
    as (_ & st' & Hp & _ & _ & Hno).
  do 3 (split; [vm_compute; reflexivity|]).
  split; [eexists; split; vm_compute; reflexivity|].
  split; [vm_compute; reflexivity|].
  exists st'. split; [exact Hp|].
  apply Hno; vm_compute; reflexivity.
Defined.

(** C4. Both positions start at the origin. A line with one of [X], [Y],
    [Z] moves the current position to the previous one and makes the
    current one of the values it gives, each axis it does not give keeping
    its value; a line with none of them leaves both positions alone. *)
Theorem positions_follow_the_axes_given :
  prevPoint initial_state = (zero, zero, zero)
  /\ currPoint initial_state = (zero, zero, zero)
  /\ forall (st : loop_state) (line : string) (d : gcode_dict),
      readGcodeLine line = Ok d ->
      exists st',
        processLine st line = Ok st'
        /\ (hasCoordinate d = true ->
            prevPoint st' = currPoint st
            /\ currPoint st'
               = let '(x, y, z) := currPoint st in
                 (axis "X" d x, axis "Y" d y, axis "Z" d z))
        /\ (hasCoordinate d = false ->
            prevPoint st' = prevPoint st /\ currPoint st' = currPoint st).
Proof.
  split; [reflexivity|]. split; [reflexivity|]. intros st line d H.
  exists (storeSegment (updatePosition st d) d).
  split; [now apply processLine_spec|].
  destruct (storeSegment_positions (updatePosition st d) d) as [-> ->].
  rewrite updatePosition_spec.
  split; intros ->; [|now split].
  now destruct (currPoint st) as [[x y] z].
Qed.

Lemma positions_follow_the_axes_given_witness :
  exists d st',
    readGcodeLine "G1 Y2.5" = Ok d
    /\ processLine (State origin (zero, zero, S754_finite false 5404319552844595 (-54)) [] [])
         "G1 Y2.5" = Ok st'
    /\ (hasCoordinate d = true ->
        currPoint st'
        = (zero, S754_finite false 5629499534213120 (-51),
           S754_finite false 5404319552844595 (-54))).
Proof.
  eexists.
  destruct (proj2 (proj2 positions_follow_the_axes_given)
              (State origin (zero, zero, S754_finite false 5404319552844595 (-54)) [] [])
              "G1 Y2.5" _ ltac:(vm_compute; reflexivity))
    as (st' & Hp & Hyes & _).
  exists st'. split; [reflexivity|]. split; [exact Hp|].
  intros Hc. destruct (Hyes Hc) as [_ ->]. vm_compute. reflexivity.
Defined.

(** C9. After any number of lines of any input, every pair [(i, j)] of the
    connectivity list has [j = i + 1], [0 <= i] and [j <= len - 1], where
    [len] is the length of the point list, so both are indices of points
    of the list. *)
Theorem connectivity_indices_are_valid
    (lines : list string) (k : nat) (st : loop_state) :
  readLines (take k lines) initial_state = Ok st ->
  Forall (fun l : Z * Z =>
            (snd l = fst l + 1 /\ 0 <= fst l
             /\ snd l <= Z.of_nat (length (pointList st)) - 1)%Z
            /\ is_Some (pointList st !! Z.to_nat (fst l))
            /\ is_Some (pointList st !! Z.to_nat (snd l)))
         (connectivity st).
Proof.
  intros H. apply readLines_ok in H as (_ & _ & H); [|apply initial_state_ok].
  eapply Forall_impl; [exact H|]. intros l Hl. split; [exact Hl|].
  unfold segment_ok in Hl. split; apply lookup_lt_is_Some; lia.
Qed.

Lemma connectivity_indices_are_valid_witness :
  exists st,
    readLines (take 3 ["G1 Z0.3"; "G1 X4.4 Y-4.4 E0.3"; "G1 X5 E1"; "G1 X6 E1"])
      initial_state = Ok st
    /\ Forall (fun l : Z * Z =>
                 (snd l = fst l + 1 /\ 0 <= fst l
                  /\ snd l <= Z.of_nat (length (pointList st)) - 1)%Z
                 /\ is_Some (pointList st !! Z.to_nat (fst l))
                 /\ is_Some (pointList st !! Z.to_nat (snd l)))
              (connectivity st).
Proof.
  eexists. split; [vm_compute; reflexivity|].
  apply (connectivity_indices_are_valid
           ["G1 Z0.3"; "G1 X4.4 Y-4.4 E0.3"; "G1 X5 E1"; "G1 X6 E1"] 3).
  vm_compute. reflexivity.
Defined.

(** C2. On a line with extrusion, the previous position is added to the
    point list when the list is empty or its last point is not equal to it,
    the current position is added in any case, and the pair of the last two
    indices of the list, as it is then, is added to the connectivity list.
    So two lines with extrusion in a row, the first from [A] to [B] and the
    second from [B] to [C], with no point stored before, give the points
    [A], [B], [C] and the pairs [(0, 1)], [(1, 2)]. *)
Theorem extrusion_appends_points_and_segment :
  (forall (st : loop_state) (line : string) (d : gcode_dict),
      readGcodeLine line = Ok d -> truthy (hasExtrusion d) = true ->
      exists st',
        processLine st line = Ok st'
        /\ let pl :=
             (if needs_previous (pointList st) (prevPoint st')
              then pointList st ++ [prevPoint st'] else pointList st)
             ++ [currPoint st'] in
           pointList st' = pl
           /\ connectivity st'
              = connectivity st
                  ++ [(Z.of_nat (length pl) - 2, Z.of_nat (length pl) - 1)%Z])
  /\ (forall (before : list string) (l1 l2 : string) (st : loop_state)
             (d1 d2 : gcode_dict) (B C : point),
         readLines before initial_state = Ok st -> pointList st = [] ->
         readGcodeLine l1 = Ok d1 -> truthy (hasExtrusion d1) = true ->
         getPoint d1 (currPoint st) = Some B ->
         readGcodeLine l2 = Ok d2 -> truthy (hasExtrusion d2) = true ->
         getPoint d2 B = Some C ->
         readGcodeFile (before ++ [l1; l2])
         = Ok ([currPoint st; B; C], [(0, 1); (1, 2)]%Z)).
Proof.
  split.
  - intros st line d H Hx.
    exists (storeSegment (updatePosition st d) d).
    split; [now apply processLine_spec|].
    destruct (storeSegment_positions (updatePosition st d) d) as [-> ->].
    destruct (updatePosition_lists st d) as [Hpl Hc].
    rewrite storeSegment_spec, Hx, Hpl, Hc. simpl. split; reflexivity.
  - intros before l1 l2 st d1 d2 B C Hst Hpl H1 Hx1 HB H2 Hx2 HC.
    assert (Hok : state_ok st) by (eapply readLines_ok; [apply initial_state_ok | exact Hst]).
    pose proof (empty_points_no_segment st Hok Hpl) as Hconn.
    pose proof (updatePosition_ok st d1 (readGcodeLine_no_nan l1 d1 H1) Hok) as Hok1.
    assert (E1 : storeSegment (updatePosition st d1) d1
                 = State (currPoint st) B [currPoint st; B] [(0, 1)%Z]).
    { rewrite storeSegment_spec, Hx1. unfold updatePosition. rewrite HB.
      simpl. now rewrite Hpl, Hconn. }
    assert (HnB : no_nan B).
    { unfold updatePosition in Hok1. rewrite HB in Hok1. apply Hok1. }
    assert (E2 : storeSegment
                   (updatePosition
                      (State (currPoint st) B [currPoint st; B] [(0, 1)%Z]) d2) d2
                 = State B C [currPoint st; B; C] [(0, 1); (1, 2)]%Z).
    { rewrite storeSegment_spec, Hx2. unfold updatePosition. simpl.
      rewrite HC. unfold needs_previous. simpl.
      now rewrite (point_eqb_refl B HnB). }
    unfold readGcodeFile, readLines in *. rewrite for_each_app, Hst. simpl.
    rewrite (processLine_spec _ l1 d1 H1), E1. simpl.
    rewrite (processLine_spec _ l2 d2 H2), E2. reflexivity.
Qed.

Lemma extrusion_appends_points_and_segment_witness :
  exists A B C,
    readGcodeFile ([] ++ ["G1 X1 E0.5"; "G1 X2 Y1 E0.5"])
    = Ok ([A; B; C], [(0, 1); (1, 2)]%Z)
    /\ A = origin.
Proof.
  exists (currPoint initial_state). eexists. eexists. split; [|reflexivity].
  eapply (proj2 extrusion_appends_points_and_segment
            [] "G1 X1 E0.5" "G1 X2 Y1 E0.5" initial_state);
    vm_compute; reflexivity.
Defined.

(** ** Results on the writer *)

(** Substituting nothing for the matches of a one-character pattern
    removes the characters of its class. *)
Lemma sub_from_class (p : cset) (whole : string) :
  forall s i,
    sub_from (One p) "" whole i s 0
    = string_filter (fun c => negb (in_cset p c)) s.
Proof.
  induction s as [|c s IH]; intros i; [reflexivity|].
  cbn [sub_from string_filter]. unfold match_at. cbn [exec].
  destruct (in_cset p c); cbn [negb accept m_end].
  - replace (S i - i - 1) with 0 by lia. rewrite IH. reflexivity.
  - now rewrite IH.
Qed.

Lemma string_filter_app (keep : ascii -> bool) (a b : string) :
  string_filter keep (a +:+ b) = string_filter keep a +:+ string_filter keep b.
Proof.
  induction a as [|c a IH]; simpl; [reflexivity|].
  destruct (keep c); simpl; now rewrite IH.
Qed.

Lemma string_of_uint_clean (d : Decimal.uint) :
  string_filter not_punctuation (NilEmpty.string_of_uint d)
  = NilEmpty.string_of_uint d.
Proof. induction d; simpl; [reflexivity | now rewrite IHd ..]. Qed.

(** The text of an integer has no comma and no parenthesis. *)
Lemma str_int_clean (n : Z) : string_filter not_punctuation (str_int n) = str_int n.
Proof.
  unfold str_int, NilZero.string_of_int, NilZero.string_of_uint.
  destruct (Z.to_int n) as [d|d].
  - destruct d; try reflexivity; apply string_of_uint_clean.
  - change (string_filter not_punctuation (String "-" ?s))
      with (String "-" (string_filter not_punctuation s)).
    f_equal. destruct d; try reflexivity; apply string_of_uint_clean.
Qed.

Lemma sub_punctuation_pair (l : Z * Z) :
  Re.sub punctuation "" (str_pair l) = str_int (fst l) +:+ " " +:+ str_int (snd l).
Proof.
  unfold Re.sub, punctuation. rewrite sub_from_class.
  fold not_punctuation. unfold str_pair.
  rewrite !string_filter_app, !str_int_clean. simpl.
  now rewrite string_app_nil_r.
Qed.

Lemma text_of_app (xs ys : list string) :
  text_of (xs ++ ys) = text_of xs +:+ text_of ys.
Proof.
  induction xs as [|x xs IH]; simpl; [reflexivity|].
  now rewrite IH, string_app_assoc.
Qed.

(** A loop that writes one string per item writes their concatenation. *)
Lemma fold_left_write {A} (g : A -> string) (xs : list A) :
  forall f, fold_left (fun f x => write f (g x)) xs f
            = f +:+ text_of (List.map g xs).
Proof.
  induction xs as [|x xs IH]; intros f; simpl.
  - now rewrite string_app_nil_r.
  - rewrite IH. unfold write. now rewrite string_app_assoc.
Qed.

(** C7. The text that the writer produces is the four header lines, the
    line [POINTS N float] with [N] the number of points, one row per point
    with each coordinate multiplied by the scale (the float of [1e-3] when
    none is given), the line [LINES M 3*M] with [M] the number of pairs, and
    one row [2 i j] per pair [(i, j)]. *)
Theorem write2VtkFile_text (repr_float : float -> string)
    (pointList : list point) (connectivity : list (Z * Z))
    (scaling : option float) :
  let s := default scaling_default scaling in
  let N := Z.of_nat (length pointList) in
  let M := Z.of_nat (length connectivity) in
  write2VtkFile repr_float pointList connectivity scaling
  = text_of
      (["# vtk DataFile Version 2.0" +:+ nl; "Some gcode" +:+ nl;
        "ASCII" +:+ nl; "DATASET POLYDATA" +:+ nl;
        "POINTS " +:+ str_int N +:+ " float" +:+ nl]
       ++ List.map (point_row repr_float s) pointList
       ++ ["LINES " +:+ str_int M +:+ " " +:+ str_int (3 * M) +:+ nl]
       ++ List.map segment_row connectivity)
  /\ length (List.map (point_row repr_float s) pointList) = length pointList
  /\ length (List.map segment_row connectivity) = length connectivity
  /\ scaling_default = S754_finite false 4611686018427388 (-62).
Proof.
  intros s N M. split; [|now rewrite !length_map].
  unfold write2VtkFile. fold s N M.
  rewrite (fold_left_write
             (fun l => ("2 " +:+ Re.sub punctuation "" (str_pair l)) +:+ nl)).
  rewrite (fold_left_write
             (fun p => join " " (List.map repr_float
                                   (List.map (fun x => mul s x) (items p)))
                       +:+ nl)).
  rewrite !text_of_app. unfold write.
  assert (Hp : List.map (fun p => join " " (List.map repr_float
                                   (List.map (fun x => mul s x) (items p)))
                                  +:+ nl) pointList
               = List.map (point_row repr_float s) pointList).
  { apply List.map_ext. intros [[x y] z]. simpl.
    now repeat (rewrite string_app_assoc; simpl). }
  assert (Hc : List.map (fun l => ("2 " +:+ Re.sub punctuation "" (str_pair l))
                                  +:+ nl) connectivity
               = List.map segment_row connectivity).
  { apply List.map_ext. intros l. rewrite sub_punctuation_pair.
    unfold segment_row. now repeat (rewrite string_app_assoc; simpl). }
  rewrite Hp, Hc. simpl text_of. rewrite !string_app_nil_r.
  now repeat (rewrite string_app_assoc; simpl).
Qed.

(** * Further properties *)

(** ** The texts that the matcher accepts *)

Lemma star_sound {A} (p : cset) (k : cont A) :
  forall s i g a,
    star p k i s g = Some a ->
    exists t rest,
      s = t +:+ rest /\ all_in p t = true
      /\ k (i + String.length t) rest g = Some a.
Proof.
  induction s as [|c s IH]; intros i g a; simpl.
  - intros H. exists "", "". rewrite Nat.add_0_r. auto.
  - destruct (in_cset p c) eqn:Hc.
    + destruct (star p k (S i) s g) as [a'|] eqn:E; simpl.
      * intros [= <-]. apply IH in E as (t & rest & -> & Ht & Hk).
        exists (String c t), rest. simpl. rewrite Hc, Ht.
        replace (i + S (String.length t)) with (S i + String.length t) by lia.
        auto.
      * intros H. exists "", (String c s). rewrite Nat.add_0_r. auto.
    + intros H. exists "", (String c s). rewrite Nat.add_0_r. auto.
Qed.

(** Whatever the matcher returns, it got from its continuation, called
    after a text of the pattern. *)
Lemma exec_sound {A} (r : regex) :
  forall (k : cont A) i s g a,
    exec r k i s g = Some a ->
    exists t rest g',
      s = t +:+ rest /\ lang r t
      /\ k (i + String.length t) rest g' = Some a.
Proof.
  induction r as [|p|r1 IH1 r2 IH2|r1 IH1 r2 IH2|r IH|p|p|n r IH];
    intros k i s g a; simpl.
  - destruct (i =? 0)%nat; [|discriminate]. intros H.
    exists "", s, g. rewrite Nat.add_0_r. auto.
  - destruct s as [|c s]; [discriminate|].
    destruct (in_cset p c) eqn:Hc; [|discriminate]. intros H.
    exists (String c ""), s, g. simpl. rewrite Nat.add_1_r. eauto.
  - intros H. apply IH1 in H as (t1 & rest1 & g1 & -> & H1 & H).
    apply IH2 in H as (t2 & rest2 & g2 & -> & H2 & H).
    exists (t1 +:+ t2), rest2, g2. rewrite string_app_assoc, string_app_length.
    rewrite Nat.add_assoc. eauto 10.
  - destruct (exec r1 k i s g) as [a'|] eqn:E; simpl.
    + intros [= <-]. apply IH1 in E as (t & rest & g' & -> & H1 & H).
      exists t, rest, g'. auto.
    + intros H. apply IH2 in H as (t & rest & g' & -> & H2 & H).
      exists t, rest, g'. auto.
  - destruct (exec r k i s g) as [a'|] eqn:E; simpl.
    + intros [= <-]. apply IH in E as (t & rest & g' & -> & H1 & H).
      exists t, rest, g'. auto.
    + intros H. exists "", s, g. rewrite Nat.add_0_r. auto.
  - intros H. apply star_sound in H as (t & rest & -> & Ht & H).
    exists t, rest, g. auto.
  - destruct s as [|c s]; [discriminate|].
    destruct (in_cset p c) eqn:Hc; [|discriminate]. intros H.
    apply star_sound in H as (t & rest & -> & Ht & H).
    exists (String c t), rest, g. simpl. rewrite Hc, Ht.
    replace (i + S (String.length t)) with (S i + String.length t) by lia.
    repeat split; auto; discriminate.
  - intros H. apply IH in H as (t & rest & g' & -> & H1 & H).
    exists t, rest, ((n, (i, i + String.length t)) :: g'). auto.
Qed.

Lemma exec_group_sound {A} (n : nat) (r : regex) (k : cont A) i s g a :
  exec (Group n r) k i s g = Some a ->
  exists t rest g',
    s = t +:+ rest /\ lang r t
    /\ k (i + String.length t) rest ((n, (i, i + String.length t)) :: g') = Some a.
Proof. simpl. intros H. now apply exec_sound in H. Qed.

Lemma coordinatePattern_parts :
  coordinatePattern = Seq (One (OneOf ["X"; "Y"; "Z"; "E"]%char)) numberPattern.
Proof. reflexivity. Qed.

(** ** The matches of the coordinate pattern, in full *)

(** A match of the coordinate pattern is a letter of the class and, as its
    group 1, a text of the number pattern. *)
Lemma coordinate_match_inv (pre s : string) (m : rmatch) :
  match_at coordinatePattern (pre +:+ s) (String.length pre) s = Some m ->
  exists c t rest,
    s = String c (t +:+ rest) /\ is_axis_letter c = true
    /\ lang numberPattern t
    /\ m_start m = String.length pre
    /\ m_end m = String.length pre + 1 + String.length t
    /\ group m 0 = Some (String c t) /\ group m 1 = Some t.
Proof.
  unfold match_at. rewrite coordinatePattern_parts. cbn [exec].
  destruct s as [|c s]; [discriminate|].
  fold (is_axis_letter c). destruct (is_axis_letter c) eqn:Hc; [|discriminate].
  unfold numberPattern at 1. intros H.
  apply exec_group_sound in H as (t & rest & g' & -> & Ht & H).
  injection H as <-. exists c, t, rest.
  repeat split; auto.
  - simpl. lia.
  - unfold group, span. simpl. rewrite substring_skip.
    replace (S (String.length pre + String.length t) - String.length pre)
      with (S (String.length t)) by lia.
    simpl. now rewrite substring_prefix.
  - unfold group, span. simpl.
    replace (String.length pre + String.length t - String.length pre)
      with (String.length t) by lia.
    change (String c (t +:+ rest)) with (String c "" +:+ (t +:+ rest)).
    rewrite <- string_app_assoc.
    replace (S (String.length pre)) with (String.length (pre +:+ String c ""))
      by (rewrite string_app_length; simpl; lia).
    rewrite substring_skip. now rewrite substring_prefix.
Qed.

Lemma is_sign_cases (c : ascii) : is_sign c = true -> c = "+"%char \/ c = "-"%char.
Proof.
  unfold is_sign. simpl. rewrite orb_false_r.
  intros [H|H]%orb_true_iff; apply Ascii.eqb_eq in H; auto.
Qed.

Lemma all_in_digit (t : string) : all_in Digit t = all_digits t.
Proof. induction t as [|c t IH]; simpl; [reflexivity | now rewrite IH]. Qed.

Lemma lang_sign (t : string) :
  lang (Opt (One (OneOf ["+"; "-"]%char))) t -> sign_text t.
Proof.
  intros [->|(c & -> & Hc)]; [now left|].
  apply is_sign_cases in Hc as [->| ->]; [right; left | right; right]; reflexivity.
Qed.

Lemma lang_fraction (t : string) :
  lang (Seq (One (Chr ".")) (Plus Digit)) t ->
  exists fp, digits1 fp /\ t = "." +:+ fp.
Proof.
  intros (t1 & t2 & -> & (c & -> & Hc) & Hne & Hd).
  simpl in Hc. apply Ascii.eqb_eq in Hc as ->.
  exists t2. rewrite all_in_digit in Hd. now repeat split.
Qed.

(** The two shapes of the text after the letter. *)
Lemma lang_numberPattern (t : string) :
  lang numberPattern t -> plain_number t \/ pointed_number t.
Proof.
  intros (t1 & t2 & -> & Hs & [H|H]).
  - left. apply lang_sign in Hs.
    destruct H as (ip & fr & -> & [Hne Hd] & Hfr).
    rewrite all_in_digit in Hd. exists t1, ip. repeat split; auto.
    destruct Hfr as [->|Hfr].
    + left. now rewrite string_app_nil_r.
    + right. apply lang_fraction in Hfr as (fp & Hfp & ->). eauto.
  - right. apply lang_sign in Hs.
    destruct H as (sg2 & t3 & -> & Hs2 & ip & fr & -> & Hip & Hfr).
    apply lang_sign in Hs2. simpl in Hip. rewrite all_in_digit in Hip.
    apply lang_fraction in Hfr as (fp & Hfp & ->).
    exists t1, sg2, ip, fp. auto.
Qed.

(** ** [float] on the two shapes *)

Lemma read_digits_run (ds rest : string) :
  all_digits ds = true -> starts_with_digit rest = false ->
  forall acc n,
    exists v, read_digits acc n (ds +:+ rest) = (v, n + String.length ds, rest).
Proof.
  intros Hd Hr. induction ds as [|c ds IH]; intros acc n; simpl.
  - exists acc. rewrite Nat.add_0_r.
    destruct rest as [|c r]; [reflexivity|]. simpl in Hr |- *. now rewrite Hr.
  - simpl in Hd. apply andb_true_iff in Hd as [Hc Hd]. rewrite Hc.
    destruct (IH Hd (10 * acc + digit_value c)%Z (S n)) as [v ->].
    exists v. f_equal. f_equal. lia.
Qed.

Lemma read_sign_text (sg body : string) :
  sign_text sg -> starts_with "+" body = false -> starts_with "-" body = false ->
  exists neg, read_sign (sg +:+ body) = (neg, body).
Proof.
  intros [->|[->| ->]] Hp Hm; simpl; eauto.
  destruct body as [|c body]; [eauto|]. simpl in Hp, Hm.
  exists false. unfold read_sign.
  destruct (Ascii.eqb_spec c "+"); [discriminate|].
  destruct (Ascii.eqb_spec c "-"); [discriminate|].
  destruct c as [[] [] [] [] [] [] [] []]; congruence.
Qed.

Lemma digit_not_sign (c : ascii) :
  is_digit c = true -> Ascii.eqb c "+" = false /\ Ascii.eqb c "-" = false
                       /\ Ascii.eqb c "." = false.
Proof.
  intros H. repeat split.
  all: destruct (Ascii.eqb_spec c "+"), (Ascii.eqb_spec c "-"),
         (Ascii.eqb_spec c "."); subst; try reflexivity; discriminate.
Qed.

(** [float] of digits with a fraction or without, after no sign. *)
Lemma float_of_unsigned (neg : bool) (ip fp : string) :
  all_digits ip = true -> digits1 fp ->
  (exists x, (let '(ip', ni, r1) := read_digits 0 0 (ip +:+ "." +:+ fp) in
              match r1 with
              | EmptyString =>
                  if (0 <? ni)%nat then Some (of_decimal neg ip' 0) else None
              | String "." r =>
                  let '(m, n, r2) := read_digits ip' ni r in
                  match r2 with
                  | EmptyString =>
                      if (0 <? n)%nat then Some (of_decimal neg m (n - ni))
                      else None
                  | _ => None
                  end
              | _ => None
              end) = Some x).
Proof.
  intros Hip [Hne Hfp].
  destruct (read_digits_run ip ("." +:+ fp) Hip eq_refl 0%Z 0) as [v ->].
  simpl String.append.
  destruct (read_digits_run fp "" Hfp eq_refl v (0 + String.length ip)) as [w Hw].
  rewrite string_app_nil_r in Hw. rewrite Hw.
  destruct fp as [|c fp]; [congruence|]. simpl String.length.
  replace (0 <? 0 + String.length ip + S (String.length fp))%nat with true
    by (symmetry; apply Nat.ltb_lt; lia).
  eauto.
Qed.

Lemma two_signs_head (a : ascii) (s : string) :
  is_sign a = false -> two_signs (String a s) = false.
Proof. intros H. destruct s; simpl; [reflexivity | now rewrite H]. Qed.

Lemma digit_is_no_sign (d : ascii) : is_digit d = true -> is_sign d = false.
Proof.
  intros Hd. destruct (digit_not_sign d Hd) as (Hp & Hm & _).
  unfold is_sign. simpl. now rewrite Hp, Hm.
Qed.

Lemma pointed_body_head (ip fp : string) :
  all_digits ip = true ->
  let body := ip +:+ "." +:+ fp in
  starts_with "+" body = false /\ starts_with "-" body = false
  /\ (forall a, is_sign a = true -> two_signs (String a body) = false).
Proof.
  intros Hip. destruct ip as [|d ip]; simpl.
  - repeat split. intros a _. now rewrite andb_false_r.
  - simpl in Hip. apply andb_true_iff in Hip as [Hd _].
    destruct (digit_not_sign d Hd) as (Hp & Hm & _).
    repeat split; auto. intros a _. unfold is_sign. simpl.
    now rewrite Hp, Hm, andb_false_r.
Qed.

Lemma float_of_signed_pointed (sg ip fp : string) :
  sign_text sg -> all_digits ip = true -> digits1 fp ->
  two_signs (sg +:+ ip +:+ "." +:+ fp) = false
  /\ exists x, float_of_string (sg +:+ ip +:+ "." +:+ fp) = Some x.
Proof.
  intros Hsg Hip Hfp.
  destruct (pointed_body_head ip fp Hip) as (Hp & Hm & H2). split.
  - destruct Hsg as [->|[->| ->]]; [|now apply H2..].
    simpl String.append. destruct ip as [|d ip].
    + now apply two_signs_head.
    + simpl in Hip. apply andb_true_iff in Hip as [Hd _].
      now apply two_signs_head, digit_is_no_sign.
  - unfold float_of_string.
    destruct (read_sign_text sg _ Hsg Hp Hm) as [neg ->]. cbv beta iota.
    apply float_of_unsigned; assumption.
Qed.

(** A sign, digits and maybe a fraction: [float] reads it. *)
Lemma float_of_plain (t : string) :
  plain_number t -> two_signs t = false /\ exists x, float_of_string t = Some x.
Proof.
  intros (sg & ip & Hsg & [Hne Hip] & [->|(fp & Hfp & ->)]).
  - destruct ip as [|d ip]; [congruence|].
    pose proof Hip as Hip'. simpl in Hip'.
    apply andb_true_iff in Hip' as [Hd _].
    destruct (digit_not_sign d Hd) as (Hp & Hm & _). split.
    + destruct Hsg as [->|[->| ->]]; simpl String.append.
      * now apply two_signs_head, digit_is_no_sign.
      * unfold two_signs. rewrite (digit_is_no_sign d Hd). apply andb_false_r.
      * unfold two_signs. rewrite (digit_is_no_sign d Hd). apply andb_false_r.
    + unfold float_of_string.
      destruct (read_sign_text sg (String d ip) Hsg) as [neg ->];
        [simpl; assumption..|]. cbv beta iota.
      destruct (read_digits_run (String d ip) "" Hip eq_refl 0%Z 0) as [v Hv].
      rewrite string_app_nil_r in Hv. rewrite Hv. simpl. eauto.
  - now apply float_of_signed_pointed.
Qed.

(** Two signs and a numeral with a point: [float] reads it unless both
    signs are there. *)
Lemma float_of_pointed (t : string) :
  pointed_number t ->
  if two_signs t then float_of_string t = None
  else exists x, float_of_string t = Some x.
Proof.
  intros (sg1 & sg2 & ip & fp & H1 & H2 & Hip & Hfp & ->).
  destruct H1 as [->|H1].
  - change ("" +:+ sg2 +:+ ip +:+ "." +:+ fp) with (sg2 +:+ ip +:+ "." +:+ fp).
    destruct (float_of_signed_pointed sg2 ip fp H2 Hip Hfp) as [-> H]. exact H.
  - destruct H2 as [->|H2].
    + change (sg1 +:+ "" +:+ ip +:+ "." +:+ fp) with (sg1 +:+ ip +:+ "." +:+ fp).
      destruct (float_of_signed_pointed sg1 ip fp (or_intror H1) Hip Hfp)
        as [-> H]. exact H.
    + destruct H1 as [->| ->], H2 as [->| ->]; reflexivity.
Qed.

(** [float] raises on the text of a coordinate exactly when the text
    starts with two signs. *)
Lemma float_of_number (t : string) :
  lang numberPattern t ->
  (float_of_string t = None <-> two_signs t = true).
Proof.
  intros [H|H]%lang_numberPattern.
  - apply float_of_plain in H as [-> [x ->]]. split; discriminate.
  - apply float_of_pointed in H. destruct (two_signs t).
    + tauto.
    + destruct H as [x ->]. split; discriminate.
Qed.

(** ** The coordinate matches of a line *)

Lemma finditer_from_Forall (P : string -> rmatch -> Prop) :
  (forall pre s m,
      match_at coordinatePattern (pre +:+ s) (String.length pre) s = Some m ->
      P (pre +:+ s) m) ->
  forall s pre skip,
    Forall (P (pre +:+ s))
      (finditer_from coordinatePattern (pre +:+ s) (String.length pre) s skip).
Proof.
  intros HP. induction s as [|c s IH]; intros pre skip.
  - destruct skip; simpl; constructor.
  - assert (Hnext : forall k,
               Forall (P (pre +:+ String c s))
                      (finditer_from coordinatePattern (pre +:+ String c s)
                         (S (String.length pre)) s k)).
    { intros k. specialize (IH (pre +:+ String c "") k).
      rewrite string_app_assoc, string_app_length in IH. simpl in IH.
      now rewrite Nat.add_1_r in IH. }
    destruct skip; simpl; [|apply Hnext].
    destruct (match_at coordinatePattern (pre +:+ String c s) (String.length pre)
                (String c s)) eqn:E; [|apply Hnext].
    constructor; [|apply Hnext]. now apply HP.
Qed.

Lemma finditer_tokens (line : string) :
  Forall (is_token line) (finditer coordinatePattern line).
Proof.
  apply (finditer_from_Forall is_token) with (pre := "") (s := line).
  intros pre s m H.
  apply coordinate_match_inv in H
    as (c & t & rest & -> & Hc & Ht & Hs & He & H0 & H1).
  exists c, t. split; [|auto]. exists pre, rest. auto.
Qed.

(** What the body of the loop does with a match of the pattern. *)
Lemma processMatch_token (line : string) (d : gcode_dict) (m : rmatch)
    (c : ascii) (t : string) :
  token_at line m c t -> is_axis_letter c = true ->
  processMatch d m
  = match float_of_string t with
    | Some v => Ok (setitem (String c "") v d)
    | None => Raise ValueError
    end.
Proof.
  intros (before & after & _ & _ & H0 & H1) Hc.
  unfold processMatch, store. rewrite H0, H1. simpl.
  unfold is_axis_letter in Hc. simpl in Hc.
  repeat (apply orb_true_iff in Hc as [Hc|Hc]);
    try (apply Ascii.eqb_eq in Hc as ->; simpl;
         destruct (float_of_string t); reflexivity).
  discriminate.
Qed.

Lemma is_token_value (line : string) (m : rmatch) :
  is_token line m ->
  (match_value m = None <-> double_signed m = true)
  /\ forall d, processMatch d m
               = match match_value m with
                 | Some v =>
                     match group m 0 with
                     | Some (String c _) => Ok (setitem (String c "") v d)
                     | _ => Raise IndexError
                     end
                 | None => Raise ValueError
                 end.
Proof.
  intros (c & t & Htok & Hc & Ht). pose proof Htok as (b & a & _ & _ & H0 & H1).
  unfold match_value, double_signed. rewrite H0, H1. simpl. split.
  - now apply float_of_number.
  - intros d. now rewrite (processMatch_token line d m c t Htok Hc).
Qed.

(** The loop over matches of the pattern raises on the first match in two
    signs, and [ValueError] only. *)
Lemma for_each_tokens (line : string) (ms : list rmatch) :
  Forall (is_token line) ms ->
  forall d,
    (forall e, for_each processMatch ms d = Raise e -> e = ValueError)
    /\ ((exists e, for_each processMatch ms d = Raise e)
        <-> Exists (fun m => double_signed m = true) ms).
Proof.
  induction 1 as [|m ms Hm Hms IH]; intros d; simpl.
  - split; [discriminate|]. split; [now intros [e ?] | now intros ?%Exists_nil].
  - destruct (is_token_value line m Hm) as [Hv Hp]. rewrite Hp.
    destruct Hm as (c & t & (b & a & _ & _ & H0 & _) & _ & _). rewrite H0.
    destruct (match_value m) as [v|]; simpl.
    + destruct (IH (setitem (String c "") v d)) as [IH1 IH2].
      split; [exact IH1|]. rewrite IH2, Exists_cons.
      assert (double_signed m <> true)
        by (intros Hd; apply Hv in Hd; discriminate).
      tauto.
    + split; [now intros e [= <-]|]. rewrite Exists_cons.
      split; [intros _; left; now apply Hv | eauto].
Qed.

Lemma two_signs_app (t a : string) :
  two_signs t = true -> two_signs (t +:+ a) = true.
Proof. destruct t as [|x [|y t]]; simpl; auto; discriminate. Qed.

Lemma has_adjacent_signs_here (s : string) :
  two_signs s = true -> has_adjacent_signs s = true.
Proof. destruct s as [|x s]; [discriminate|]. simpl. now intros ->. Qed.

Lemma has_adjacent_signs_suffix (b s : string) :
  has_adjacent_signs s = true -> has_adjacent_signs (b +:+ s) = true.
Proof.
  intros H. induction b as [|x b IH]; [exact H|].
  change (String x b +:+ s) with (String x (b +:+ s)).
  cbn [has_adjacent_signs]. rewrite IH. apply orb_true_r.
Qed.

Lemma double_signed_adjacent (line : string) (m : rmatch) :
  is_token line m -> double_signed m = true -> has_adjacent_signs line = true.
Proof.
  intros (c & t & (b & a & -> & _ & _ & H1) & _ & _). unfold double_signed.
  rewrite H1. intros H. apply has_adjacent_signs_suffix.
  cbn [has_adjacent_signs].
  rewrite (has_adjacent_signs_here (t +:+ a)); [apply orb_true_r|].
  now apply two_signs_app.
Qed.

Lemma axis_letter_key (c : ascii) :
  is_axis_letter c = true -> String c "" ∈ ["X"; "Y"; "Z"; "E"].
Proof.
  unfold is_axis_letter. simpl. intros Hc.
  repeat (apply orb_true_iff in Hc as [Hc|Hc]);
    try (apply Ascii.eqb_eq in Hc as ->); [set_solver.. | discriminate].
Qed.

(** The three ways a line is read. *)
Lemma readGcodeLine_phases (line : string) :
  (starts_with ";" line = true /\ readGcodeLine line = Ok (Dict "comment" ∅))
  \/ (starts_with ";" line = false
      /\ exists t,
          readGcodeLine line = processCoordinates line (Dict t ∅)
          /\ (t = "unknown" /\ has_G_digit line = false
              \/ exists ds, ds <> "" /\ all_digits ds = true
                            /\ t = String "G" ds)).
Proof.
  destruct (starts_with ";" line) eqn:Hsemi.
  - left. split; [reflexivity|]. destruct line as [|c rest]; [discriminate|].
    simpl in Hsemi. apply Ascii.eqb_eq in Hsemi as ->. reflexivity.
  - right. split; [reflexivity|]. destruct (has_G_digit line) eqn:HG.
    + destruct (has_G_digit_split line HG) as (pre & ds & rest & -> & ? & ? & ? & ?).
      exists (String "G" ds). split; [now apply readGcodeLine_G | eauto].
    + exists "unknown". split; [now apply readGcodeLine_unknown | auto].
Qed.

(** ** Further results on the line reader *)

(** X1. Every match of the coordinate pattern in a line is one of the
    letters [X], [Y], [Z], [E] followed by a text of one of two shapes: an
    optional sign, digits and an optional fraction; or up to two signs,
    optional digits and a fraction. Group 1 is that text. *)
Theorem coordinate_matches_shape (line : string) :
  Forall (fun m =>
            exists c t,
              token_at line m c t /\ is_axis_letter c = true
              /\ (plain_number t \/ pointed_number t))
         (finditer coordinatePattern line).
Proof.
  eapply Forall_impl; [apply finditer_tokens|].
  intros m (c & t & Htok & Hc & Ht). exists c, t.
  auto using lang_numberPattern.
Qed.

(** X2. The line reader raises nothing but [ValueError], and it raises
    exactly on the lines that do not start with [;] and have a coordinate
    match whose number starts with two signs. *)
Theorem readGcodeLine_raises_iff (line : string) :
  (forall e, readGcodeLine line = Raise e -> e = ValueError)
  /\ ((exists e, readGcodeLine line = Raise e)
      <-> starts_with ";" line = false
          /\ Exists (fun m => double_signed m = true)
               (finditer coordinatePattern line)).
Proof.
  destruct (readGcodeLine_phases line) as [[Hs ->] | (Hs & t & -> & _)].
  - split; [discriminate|]. rewrite Hs.
    split; [now intros [e ?] | now intros [? _]].
  - destruct (for_each_tokens line _ (finditer_tokens line) (Dict t ∅))
      as [H1 H2].
    split; [exact H1|]. unfold processCoordinates. rewrite H2. tauto.
Qed.

Lemma tidy_line_is_read (line : string) :
  has_adjacent_signs line = false -> exists d, readGcodeLine line = Ok d.
Proof.
  intros Hno.
  destruct (readGcodeLine_phases line) as [[Hs ->] | (Hs & t & -> & _)];
    [eauto|].
  pose proof (finditer_tokens line) as Htok.
  destruct (for_each_tokens line _ Htok (Dict t ∅)) as [_ H2].
  unfold processCoordinates.
  destruct (for_each processMatch _ _) as [d|e] eqn:E; [eauto|].
  assert (Hex : Exists (fun m => double_signed m = true)
                  (finditer coordinatePattern line)) by (apply H2; eauto).
  apply Exists_exists in Hex as (m & Hin & Hd).
  rewrite Forall_forall in Htok.
  rewrite (double_signed_adjacent line m (Htok m Hin) Hd) in Hno. discriminate.
Qed.

(** X3. A line in which no two signs stand side by side is always read:
    the line reader returns a dictionary. *)
Theorem readGcodeLine_returns (line : string) :
  has_adjacent_signs line = false -> exists d, readGcodeLine line = Ok d.
Proof. apply tidy_line_is_read. Qed.

Lemma readGcodeLine_returns_witness :
  has_adjacent_signs "G1 X-1.5 Y+.25 E-3" = false
  /\ exists d, readGcodeLine "G1 X-1.5 Y+.25 E-3" = Ok d.
Proof.
  split; [reflexivity|]. apply readGcodeLine_returns. reflexivity.
Defined.

Lemma has_letter_token (line : string) (m : rmatch) (c c' : ascii) (t : string) :
  token_at line m c' t -> has_letter c m = Ascii.eqb c' c.
Proof. intros (b & a & _ & _ & H0 & _). unfold has_letter. now rewrite H0. Qed.

(** After the loop over the matches, the entry of a letter is the value of
    the last match with that letter, or what it was when there is none. *)
Lemma for_each_last (line : string) (c : ascii) (ms : list rmatch) :
  Forall (is_token line) ms ->
  forall d0 d,
    for_each processMatch ms d0 = Ok d ->
    fields d !! String c ""
    = match last (List.filter (has_letter c) ms) with
      | Some m => match_value m
      | None => fields d0 !! String c ""
      end.
Proof.
  induction 1 as [|m ms Hm Hms IH]; intros d0 d; simpl.
  - now intros [= <-].
  - destruct (is_token_value line m Hm) as [_ Hp]. rewrite Hp.
    destruct Hm as (c' & t & Htok & Hc & _).
    pose proof (has_letter_token line m c c' t Htok) as Hl.
    destruct Htok as (b & a & _ & _ & H0 & _). rewrite H0.
    destruct (match_value m) as [v|] eqn:Hv; [|discriminate]. simpl.
    intros H. rewrite (IH _ _ H). rewrite Hl.
    destruct (Ascii.eqb_spec c' c) as [->|Hne].
    + rewrite last_cons.
      destruct (last (List.filter (has_letter c) ms)); [reflexivity|].
      simpl. now rewrite lookup_insert_eq.
    + destruct (last (List.filter (has_letter c) ms)); [reflexivity|].
      simpl. apply lookup_insert_ne. congruence.
Qed.

(** X4. The last occurrence wins: when a line that is no comment is read,
    the entry of the letter [c] is [float] of group 1 of the last
    coordinate match that starts with [c], and there is no entry when no
    match starts with [c]. *)
Theorem last_occurrence_wins (line : string) (d : gcode_dict) (c : ascii) :
  starts_with ";" line = false -> readGcodeLine line = Ok d ->
  fields d !! String c ""
  = last (List.filter (has_letter c) (finditer coordinatePattern line))
      ≫= match_value.
Proof.
  intros Hs H.
  destruct (readGcodeLine_phases line) as [[Hs' _] | (_ & t & E & _)];
    [congruence|].
  rewrite E in H.
  rewrite (for_each_last line c _ (finditer_tokens line) _ _ H). simpl.
  now destruct (last _).
Qed.

Lemma last_occurrence_wins_witness :
  exists d,
    readGcodeLine "G1 X1 Y5 X2.5" = Ok d
    /\ fields d !! "X" = float_of_string "2.5".
Proof.
  eexists. split; [vm_compute; reflexivity|].
  rewrite (last_occurrence_wins "G1 X1 Y5 X2.5" _ "X" eq_refl
             ltac:(vm_compute; reflexivity)).
  vm_compute. reflexivity.
Defined.

(** X5. The dictionary of a line has numeric entries for [X], [Y], [Z] and
    [E] only, and none of the values is a NaN. *)
Theorem token_set_well_formed (line : string) (d : gcode_dict) :
  readGcodeLine line = Ok d ->
  forall key v,
    fields d !! key = Some v ->
    key ∈ ["X"; "Y"; "Z"; "E"] /\ is_nan v = false.
Proof.
  assert (Hloop : forall ms,
             Forall (is_token line) ms ->
             forall d0 d1,
               map_Forall (fun key v => key ∈ ["X"; "Y"; "Z"; "E"]
                                        /\ is_nan v = false) (fields d0) ->
               for_each processMatch ms d0 = Ok d1 ->
               map_Forall (fun key v => key ∈ ["X"; "Y"; "Z"; "E"]
                                        /\ is_nan v = false) (fields d1)).
  { induction 1 as [|m ms Hm Hms IH]; intros d0 d1 H0; simpl.
    - now intros [= <-].
    - destruct Hm as (c & t & Htok & Hc & _).
      rewrite (processMatch_token line d0 m c t Htok Hc).
      destruct (float_of_string t) as [v|] eqn:Hv; [|discriminate]. simpl.
      apply IH. apply map_Forall_insert_2; [|exact H0].
      split; [now apply axis_letter_key | now apply float_of_string_not_nan in Hv]. }
  intros H.
  destruct (readGcodeLine_phases line) as [[_ E] | (_ & t & E & _)];
    rewrite E in H.
  - injection H as <-. intros key v. simpl. now rewrite lookup_empty.
  - apply (Hloop _ (finditer_tokens line)) in H; [exact H | apply map_Forall_empty].
Qed.

Lemma token_set_well_formed_witness :
  exists d v,
    readGcodeLine "G1 F1500 X000.50 S5 E-0" = Ok d
    /\ fields d !! "E" = Some v
    /\ "E" ∈ ["X"; "Y"; "Z"; "E"] /\ is_nan v = false.
Proof.
  eexists. eexists. split; [vm_compute; reflexivity|].
  split; [vm_compute; reflexivity|].
  eapply (token_set_well_formed "G1 F1500 X000.50 S5 E-0");
    vm_compute; reflexivity.
Defined.

(** X6. The type of a line is [comment], and then the line starts with [;]
    and has no numeric entry, or [unknown], and then the line has no [G]
    with a digit after it, or the letter [G] followed by digits. *)
Theorem line_type_forms (line : string) (d : gcode_dict) :
  readGcodeLine line = Ok d ->
  (ty d = "comment" /\ fields d = ∅ /\ starts_with ";" line = true)
  \/ (ty d = "unknown" /\ has_G_digit line = false)
  \/ (exists ds, ds <> "" /\ all_digits ds = true /\ ty d = String "G" ds).
Proof.
  intros H.
  destruct (readGcodeLine_phases line) as [[Hs E] | (_ & t & E & Ht)];
    rewrite E in H.
  - injection H as <-. auto.
  - apply processCoordinates_ty in H. simpl in H. rewrite H.
    destruct Ht as [[-> HG] | (ds & ? & ? & ->)]; eauto 10.
Qed.

Lemma line_type_forms_witness :
  exists d,
    readGcodeLine "N3 G028 X1" = Ok d
    /\ exists ds, ds <> "" /\ all_digits ds = true /\ ty d = String "G" ds.
Proof.
  eexists. split; [vm_compute; reflexivity|].
  destruct (line_type_forms "N3 G028 X1" _ ltac:(vm_compute; reflexivity))
    as [(H & _) | [(H & _) | H]]; [discriminate H | discriminate H | exact H].
Defined.

(** ** Further results on the helpers of the loop *)

(** X7. [getPoint] returns a point exactly when [hasCoordinate] holds,
    whatever the current point, and it returns one for every line that
    [hasExtrusion] accepts. *)
Theorem getPoint_agrees_with_hasCoordinate (d : gcode_dict) (p : point) :
  (getPoint d p = None <-> hasCoordinate d = false)
  /\ (is_Some (getPoint d p) <-> hasCoordinate d = true)
  /\ (truthy (hasExtrusion d) = true -> is_Some (getPoint d p)).
Proof.
  destruct p as [[x y] z]. rewrite getPoint_spec.
  pose proof (hasExtrusion_spec d) as Hx.
  destruct (hasCoordinate d).
  - repeat split; eauto; discriminate.
  - repeat split; try discriminate; try (now intros [? [=]]).
    intros H. apply Hx in H as [[=] _].
Qed.

(** X8. [getPoint] gives absolute positions: reading the same line from
    the point it led to leads to the same point again, and a line with all
    of [X], [Y], [Z] leads to the same point from anywhere. *)
Theorem getPoint_absolute (d : gcode_dict) (p q : point) :
  getPoint d p = Some q ->
  getPoint d q = Some q
  /\ (contains "X" d && contains "Y" d && contains "Z" d = true ->
      forall p', getPoint d p' = Some q).
Proof.
  destruct p as [[x y] z], q as [[x' y'] z']. rewrite !getPoint_spec.
  destruct (hasCoordinate d) eqn:Hc; [|discriminate].
  unfold axis, contains. intros [= <- <- <-]. split.
  - destruct (fields d !! "X"), (fields d !! "Y"), (fields d !! "Z"); reflexivity.
  - intros H [[a b] c]. rewrite getPoint_spec, Hc. unfold axis.
    destruct (fields d !! "X"), (fields d !! "Y"), (fields d !! "Z");
      try discriminate; reflexivity.
Qed.

Lemma getPoint_absolute_witness :
  exists d q,
    readGcodeLine "G1 X1 Z3" = Ok d
    /\ getPoint d origin = Some q /\ getPoint d q = Some q.
Proof.
  eexists. eexists. split; [vm_compute; reflexivity|].
  split; [vm_compute; reflexivity|].
  eapply (proj1 (getPoint_absolute _ origin _ _)).
  Unshelve. vm_compute. reflexivity.
Defined.

(** ** Further results on the loop over the lines *)

Lemma readGcodeLine_error (line : string) (e : exn) :
  readGcodeLine line = Raise e -> e = ValueError.
Proof.
  destruct (readGcodeLine_phases line) as [[_ ->] | (_ & t & -> & _)];
    [discriminate|].
  apply (for_each_tokens line _ (finditer_tokens line) (Dict t ∅)).
Qed.

Lemma processLine_raise (st : loop_state) (line : string) (e : exn) :
  readGcodeLine line = Raise e -> processLine st line = Raise e.
Proof. intros H. unfold processLine. now rewrite H. Qed.

Lemma readLines_returns_iff (lines : list string) :
  forall st,
    ((exists st', readLines lines st = Ok st')
     <-> Forall (fun line => exists d, readGcodeLine line = Ok d) lines)
    /\ (forall e, readLines lines st = Raise e -> e = ValueError).
Proof.
  unfold readLines. induction lines as [|line lines IH]; intros st; simpl.
  - split; [|discriminate]. split; [constructor | eauto].
  - rewrite Forall_cons. destruct (readGcodeLine line) as [d|e0] eqn:E.
    + rewrite (processLine_spec st line d E). simpl.
      destruct (IH (storeSegment (updatePosition st d) d)) as [IH1 IH2].
      split; [|exact IH2]. rewrite IH1. split; [eauto | tauto].
    + rewrite (processLine_raise st line e0 E). simpl.
      apply readGcodeLine_error in E as ->.
      split; [|now intros e [= <-]].
      split; [now intros [? ?] | now intros [[? ?] _]].
Qed.

(** X9. Reading a file returns when every line is read by the line
    reader, and only then; if not, it raises [ValueError]. *)
Theorem readGcodeFile_returns_iff (lines : list string) :
  ((exists r, readGcodeFile lines = Ok r)
   <-> Forall (fun line => exists d, readGcodeLine line = Ok d) lines)
  /\ (forall e, readGcodeFile lines = Raise e -> e = ValueError).
Proof.
  pose proof (readLines_returns_iff lines initial_state) as H.
  unfold readGcodeFile.
  destruct (readLines lines initial_state) as [st|e0]; simpl.
  - destruct H as [H _]. split; [|discriminate].
    rewrite <- H. split; eauto.
  - destruct H as [H1 H2]. split; [|intros e [= <-]; now apply H2].
    rewrite <- H1. split; now intros [? ?].
Qed.

(** X10. A file in which no line has two signs side by side is always
    read: [readGcodeFile] returns its two lists. *)
Theorem readGcodeFile_returns_on_tidy_files (lines : list string) :
  Forall (fun line => has_adjacent_signs line = false) lines ->
  exists pl conn, readGcodeFile lines = Ok (pl, conn).
Proof.
  intros H.
  assert (Hall : Forall (fun line => exists d, readGcodeLine line = Ok d) lines).
  { eapply Forall_impl; [exact H|]. intros line. apply tidy_line_is_read. }
  apply (readLines_returns_iff lines initial_state) in Hall as [st Hst].
  unfold readGcodeFile. rewrite Hst. simpl. eauto.
Qed.

Lemma readGcodeFile_returns_on_tidy_files_witness :
  Forall (fun line => has_adjacent_signs line = false)
    ["; layer 1"; "G1 X-1 Y+2.5 E.1"; "M104 S200"]
  /\ exists pl conn,
      readGcodeFile ["; layer 1"; "G1 X-1 Y+2.5 E.1"; "M104 S200"]
      = Ok (pl, conn).
Proof.
  assert (H : Forall (fun line => has_adjacent_signs line = false)
                ["; layer 1"; "G1 X-1 Y+2.5 E.1"; "M104 S200"])
    by (repeat constructor).
  split; [exact H | exact (readGcodeFile_returns_on_tidy_files _ H)].
Defined.

Lemma is_inert_spec (st : loop_state) (line : string) :
  is_inert line = true -> processLine st line = Ok st.
Proof.
  unfold is_inert. destruct (readGcodeLine line) as [d|] eqn:E; [|discriminate].
  intros Hc%negb_true_iff. rewrite (processLine_spec st line d E).
  rewrite updatePosition_spec, Hc, storeSegment_spec.
  destruct (truthy (hasExtrusion d)) eqn:Hx; [|reflexivity].
  apply hasExtrusion_spec in Hx as [Hx _]. congruence.
Qed.

(** X11. Lines that are read and have none of [X], [Y], [Z] change
    nothing: dropping them from the file gives the same result. Comment
    lines are among them. *)
Theorem inert_lines_can_be_dropped (lines : list string) :
  readGcodeFile (List.filter (fun line => negb (is_inert line)) lines)
  = readGcodeFile lines
  /\ Forall (fun line => starts_with ";" line = true -> is_inert line = true)
       lines.
Proof.
  split.
  - unfold readGcodeFile. f_equal. unfold readLines. generalize initial_state.
    induction lines as [|line lines IH]; intros st; [reflexivity|].
    simpl. destruct (is_inert line) eqn:E; simpl.
    + now rewrite (is_inert_spec st line E).
    + destruct (processLine st line); simpl; [apply IH | reflexivity].
  - apply Forall_forall. intros line _ Hs.
    destruct line as [|c rest]; [discriminate|]. simpl in Hs.
    apply Ascii.eqb_eq in Hs as ->. reflexivity.
Qed.

(** What one line that is read makes of the two lists. *)
Lemma step_lists (st : loop_state) (d : gcode_dict) :
  let st' := storeSegment (updatePosition st d) d in
  if truthy (hasExtrusion d) then
    exists added,
      (added = [currPoint st; currPoint st']
       \/ added = [currPoint st']
          /\ exists q, last (pointList st) = Some q
                       /\ point_eqb (currPoint st) q = true)
      /\ pointList st' = pointList st ++ added
      /\ connectivity st'
         = connectivity st
             ++ [(Z.of_nat (length (pointList st')) - 2,
                  Z.of_nat (length (pointList st')) - 1)%Z]
      /\ prevPoint st' = currPoint st
  else pointList st' = pointList st /\ connectivity st' = connectivity st.
Proof.
  intros st'. subst st'. rewrite storeSegment_spec.
  destruct (updatePosition_lists st d) as [Hpl Hc].
  destruct (truthy (hasExtrusion d)) eqn:Hx; [|auto].
  apply hasExtrusion_spec in Hx as [Hco _].
  assert (Hprev : prevPoint (updatePosition st d) = currPoint st).
  { rewrite updatePosition_spec, Hco. now destruct (currPoint st) as [[x y] z]. }
  cbn [pointList connectivity prevPoint currPoint].
  rewrite Hpl, Hc, Hprev. unfold needs_previous.
  destruct (last (pointList st)) as [q|] eqn:Hl.
  - destruct (point_eqb (currPoint st) q) eqn:Heq; simpl.
    + eexists. split; [right; split; [reflexivity | eauto]|]. auto.
    + eexists. split; [left; reflexivity|]. rewrite <- app_assoc. auto.
  - eexists. split; [left; reflexivity|]. rewrite <- app_assoc. auto.
Qed.

(** An invariant of the states, kept by every line that is read, holds
    after the loop. *)
Lemma readLines_invariant (P : loop_state -> Prop) :
  (forall st line d,
      readGcodeLine line = Ok d -> state_ok st -> P st ->
      P (storeSegment (updatePosition st d) d)) ->
  forall lines st st',
    state_ok st -> P st -> readLines lines st = Ok st' -> P st'.
Proof.
  intros Hstep. unfold readLines.
  induction lines as [|line lines IH]; simpl; intros st st' Hok HP.
  - now intros [= <-].
  - destruct (readGcodeLine line) as [d|e] eqn:E.
    + rewrite (processLine_spec st line d E). simpl. apply IH.
      * apply storeSegment_ok, updatePosition_ok; [|exact Hok].
        now apply readGcodeLine_no_nan in E.
      * now apply (Hstep st line d).
    + now rewrite (processLine_raise st line e E).
Qed.

Lemma readGcodeFile_state (lines : list string) (pl : list point)
    (conn : list (Z * Z)) :
  readGcodeFile lines = Ok (pl, conn) ->
  exists st, readLines lines initial_state = Ok st
             /\ pointList st = pl /\ connectivity st = conn.
Proof.
  unfold readGcodeFile. destruct (readLines lines initial_state) as [st|];
    [|discriminate]. simpl. intros [= <- <-]. eauto.
Qed.

(** X12. The result has one segment for each line of the file that is an
    extrusion. *)
Theorem one_segment_per_extrusion (lines : list string) (pl : list point)
    (conn : list (Z * Z)) :
  readGcodeFile lines = Ok (pl, conn) ->
  length conn = length (List.filter extrudes lines).
Proof.
  intros (st & H & _ & <-)%readGcodeFile_state.
  change (length (connectivity st)
          = length (connectivity initial_state)
            + length (List.filter extrudes lines)).
  revert H. generalize initial_state. unfold readLines.
  induction lines as [|line lines IH]; simpl; intros st0.
  - intros [= <-]. lia.
  - unfold extrudes at 1. destruct (readGcodeLine line) as [d|e] eqn:E.
    + rewrite (processLine_spec st0 line d E). simpl. intros H.
      rewrite (IH _ H). pose proof (step_lists st0 d) as Hs. cbv zeta in Hs.
      destruct (truthy (hasExtrusion d)).
      * destruct Hs as (added & _ & _ & -> & _). rewrite length_app. simpl. lia.
      * destruct Hs as [_ ->]. reflexivity.
    + now rewrite (processLine_raise st0 line e E).
Qed.

Lemma one_segment_per_extrusion_witness :
  exists pl conn,
    readGcodeFile ["G1 Z0.2"; "G1 X1 E1"; "G1 E2"; "G1 X2 E-1"; "G1 Y1 E0.5"]
    = Ok (pl, conn)
    /\ length conn = 2.
Proof.
  eexists. eexists. split; [vm_compute; reflexivity|].
  rewrite (one_segment_per_extrusion
             ["G1 Z0.2"; "G1 X1 E1"; "G1 E2"; "G1 X2 E-1"; "G1 Y1 E0.5"] _ _
             ltac:(vm_compute; reflexivity)).
  vm_compute. reflexivity.
Defined.

Lemma sizes_step (st : loop_state) (d : gcode_dict) :
  sizes_ok st -> sizes_ok (storeSegment (updatePosition st d) d).
Proof.
  intros H. pose proof (step_lists st d) as Hs. cbv zeta in Hs.
  unfold sizes_ok in *. destruct (truthy (hasExtrusion d)).
  - destruct Hs as (added & Ha & -> & -> & _). right.
    rewrite !length_app. simpl.
    destruct Ha as [->|[-> (q & Hq & _)]]; simpl.
    + destruct H as [[-> ->]|H]; simpl; lia.
    + destruct H as [[Hpl _]|H]; [|lia].
      rewrite Hpl in Hq. discriminate.
  - destruct Hs as [-> ->]. exact H.
Qed.

(** X13. In the result the point list is empty exactly when the
    connectivity list is; otherwise there are more points than segments and
    at most two points per segment. *)
Theorem points_and_segments_sizes (lines : list string) (pl : list point)
    (conn : list (Z * Z)) :
  readGcodeFile lines = Ok (pl, conn) ->
  (pl = [] <-> conn = [])
  /\ (conn <> [] ->
      length conn + 1 <= length pl /\ length pl <= 2 * length conn).
Proof.
  intros (st & H & <- & <-)%readGcodeFile_state.
  apply (readLines_invariant sizes_ok) in H;
    [| intros; now apply sizes_step | apply initial_state_ok | now left].
  destruct H as [[-> ->]|H]; [now split|].
  split; [|auto].
  split; intros E; rewrite E in H; simpl in H; [|lia].
  destruct (connectivity st); simpl in H; [reflexivity | lia].
Qed.

Lemma points_and_segments_sizes_witness :
  exists pl conn,
    readGcodeFile ["G1 X1 E1"; "G0 X5"; "G1 X6 E1"; "G1 X7 E1"] = Ok (pl, conn)
    /\ length conn + 1 <= length pl /\ length pl <= 2 * length conn.
Proof.
  eexists. eexists. split; [vm_compute; reflexivity|].
  apply (points_and_segments_sizes
           ["G1 X1 E1"; "G0 X5"; "G1 X6 E1"; "G1 X7 E1"]).
  - vm_compute. reflexivity.
  - discriminate.
Defined.

Lemma chain_step (st : loop_state) (d : gcode_dict) :
  state_ok st -> chain_ok st ->
  chain_ok (storeSegment (updatePosition st d) d).
Proof.
  intros (_ & _ & Hseg) (Hcov & Hsort & Hlast).
  pose proof (step_lists st d) as Hs. cbv zeta in Hs.
  destruct (truthy (hasExtrusion d)).
  2: { destruct Hs as [Hpl Hc]. unfold chain_ok. now rewrite Hpl, Hc. }
  destruct Hs as (added & Ha & Hpl & Hc & _).
  set (st' := storeSegment (updatePosition st d) d) in *.
  assert (Hlen : length (pointList st') = length (pointList st) + length added)
    by (rewrite Hpl; apply length_app).
  assert (Hadd : (length added = 1 /\ pointList st <> []) \/ length added = 2).
  { destruct Ha as [->|[-> (q & Hq & _)]]; [now right | left].
    split; [reflexivity|]. intros E. rewrite E in Hq. discriminate. }
  assert (Hpos : 0 < length (pointList st) \/ length added = 2).
  { destruct Hadd as [[_ Hne]|]; [left | now right].
    destruct (pointList st); [congruence | simpl; lia]. }
  unfold chain_ok. rewrite Hc. repeat split.
  - intros n Hn. destruct (Nat.lt_ge_cases n (length (pointList st))) as [Hold|Hnew].
    + destruct (Hcov n Hold) as (l & Hin & Hl). exists l.
      split; [apply elem_of_app; now left | exact Hl].
    + eexists. split; [apply elem_of_app; right; apply list_elem_of_singleton; reflexivity|].
      simpl. lia.
  - intros a b la lb Hab Ha' Hb'.
    destruct (Nat.lt_ge_cases b (length (connectivity st))) as [Hb|Hb].
    + rewrite lookup_app_l in Ha', Hb' by lia. eauto.
    + rewrite lookup_app_r in Hb' by lia.
      destruct (b - length (connectivity st)) as [|k] eqn:Ek; [|discriminate].
      injection Hb' as <-. rewrite lookup_app_l in Ha' by lia.
      rewrite Forall_forall in Hseg.
      assert (Hin : la ∈ connectivity st) by (eapply list_elem_of_lookup_2; eauto).
      apply Hseg in Hin. unfold segment_ok in Hin. simpl. lia.
  - intros l. rewrite last_snoc. now intros [= <-].
Qed.

Lemma chain_initial : chain_ok initial_state.
Proof.
  repeat split; simpl.
  - intros n Hn. lia.
  - intros a b la lb _ Ha. discriminate.
  - discriminate.
Qed.

(** X14. In the result every point is an end of at least one segment, the
    segments come in strictly increasing order of their first index, and
    the last segment ends at the last point. *)
Theorem segments_chain_the_points (lines : list string) (pl : list point)
    (conn : list (Z * Z)) :
  readGcodeFile lines = Ok (pl, conn) ->
  (forall n, n < length pl ->
             exists l, l ∈ conn /\ (fst l = Z.of_nat n \/ snd l = Z.of_nat n))
  /\ (forall a b la lb,
         a < b -> conn !! a = Some la -> conn !! b = Some lb ->
         (fst la < fst lb)%Z)
  /\ (forall l, last conn = Some l ->
                l = (Z.of_nat (length pl) - 2, Z.of_nat (length pl) - 1)%Z).
Proof.
  intros (st & H & <- & <-)%readGcodeFile_state.
  apply (readLines_invariant chain_ok) in H;
    [exact H | intros; now apply chain_step | apply initial_state_ok
     | apply chain_initial].
Qed.

Lemma segments_chain_the_points_witness :
  exists pl conn,
    readGcodeFile ["G1 X1 E1"; "G0 X5"; "G1 X6 E1"; "G1 X7 E1"] = Ok (pl, conn)
    /\ forall l, last conn = Some l ->
                 l = (Z.of_nat (length pl) - 2, Z.of_nat (length pl) - 1)%Z.
Proof.
  eexists. eexists. split; [vm_compute; reflexivity|].
  apply (segments_chain_the_points
           ["G1 X1 E1"; "G0 X5"; "G1 X6 E1"; "G1 X7 E1"]).
  vm_compute. reflexivity.
Defined.

Lemma readLines_extends (lines : list string) :
  forall st st',
    readLines lines st = Ok st' ->
    pointList st `prefix_of` pointList st'
    /\ connectivity st `prefix_of` connectivity st'.
Proof.
  unfold readLines. induction lines as [|line lines IH]; simpl; intros st st'.
  - now intros [= <-].
  - destruct (readGcodeLine line) as [d|e] eqn:E.
    + rewrite (processLine_spec st line d E). simpl.
      intros [H1 H2]%IH. pose proof (step_lists st d) as Hs. cbv zeta in Hs.
      destruct (truthy (hasExtrusion d)).
      * destruct Hs as (added & _ & Hpl & Hc & _).
        split; (etrans; [|eassumption]).
        -- rewrite Hpl. now apply prefix_app_r.
        -- rewrite Hc. now apply prefix_app_r.
      * destruct Hs as [Hpl Hc]. now rewrite Hpl, Hc in *.
    + now rewrite (processLine_raise st line e E).
Qed.

(** X15. The two lists only grow: the result for the first lines of a
    file is the start of the result for the whole file. *)
Theorem results_only_grow (first rest : list string)
    (pl pl' : list point) (conn conn' : list (Z * Z)) :
  readGcodeFile first = Ok (pl, conn) ->
  readGcodeFile (first ++ rest) = Ok (pl', conn') ->
  pl `prefix_of` pl' /\ conn `prefix_of` conn'.
Proof.
  intros (st & H & <- & <-)%readGcodeFile_state
         (st' & H' & <- & <-)%readGcodeFile_state.
  unfold readLines in H'. rewrite for_each_app in H'.
  unfold readLines in H. rewrite H in H'. simpl in H'.
  now apply readLines_extends in H'.
Qed.

Lemma results_only_grow_witness :
  exists pl conn pl' conn',
    readGcodeFile ["G1 X1 E1"] = Ok (pl, conn)
    /\ readGcodeFile (["G1 X1 E1"] ++ ["G1 Y1 E1"; "G0 Z5"]) = Ok (pl', conn')
    /\ pl `prefix_of` pl' /\ conn `prefix_of` conn'.
Proof.
  do 4 eexists. split; [vm_compute; reflexivity|].
  split; [vm_compute; reflexivity|].
  apply (results_only_grow ["G1 X1 E1"] ["G1 Y1 E1"; "G0 Z5"]);
    vm_compute; reflexivity.
Defined.

(** X16. The segment that an extrusion line adds joins the position
    before the line and the position after it: its second index is that of
    the current position, and its first index is that of a point equal, as
    floats, to the position the line started from. *)
Theorem segment_joins_positions (before : list string) (st : loop_state)
    (line : string) (d : gcode_dict) :
  readLines before initial_state = Ok st ->
  readGcodeLine line = Ok d -> truthy (hasExtrusion d) = true ->
  exists st' i j P,
    processLine st line = Ok st'
    /\ last (connectivity st') = Some (i, j)
    /\ pointList st' !! Z.to_nat i = Some P
    /\ point_eqb (currPoint st) P = true
    /\ pointList st' !! Z.to_nat j = Some (currPoint st').
Proof.
  intros Hst H Hx.
  assert (Hok : state_ok st)
    by (eapply readLines_ok; [apply initial_state_ok | exact Hst]).
  rewrite (processLine_spec st line d H).
  pose proof (step_lists st d) as Hs. cbv zeta in Hs. rewrite Hx in Hs.
  destruct Hs as (added & Ha & Hpl & Hc & _).
  set (st' := storeSegment (updatePosition st d) d) in *.
  exists st'. do 2 eexists.
  destruct Ha as [->|[-> (q & Hq & Heq)]].
  - exists (currPoint st). split; [reflexivity|]. rewrite Hc, last_snoc.
    split; [reflexivity|]. rewrite Hpl, length_app. simpl.
    replace (Z.to_nat (Z.of_nat (length (pointList st) + 2) - 2))
      with (length (pointList st) + 0) by lia.
    replace (Z.to_nat (Z.of_nat (length (pointList st) + 2) - 1))
      with (length (pointList st) + 1) by lia.
    rewrite !lookup_app_r by lia.
    replace (length (pointList st) + 0 - length (pointList st)) with 0 by lia.
    replace (length (pointList st) + 1 - length (pointList st)) with 1 by lia.
    repeat split. apply point_eqb_refl, Hok.
  - exists q. split; [reflexivity|]. rewrite Hc, last_snoc.
    split; [reflexivity|]. rewrite Hpl, length_app. simpl.
    assert (Hlen : 0 < length (pointList st)).
    { destruct (pointList st); [discriminate | simpl; lia]. }
    replace (Z.to_nat (Z.of_nat (length (pointList st) + 1) - 2))
      with (pred (length (pointList st))) by lia.
    replace (Z.to_nat (Z.of_nat (length (pointList st) + 1) - 1))
      with (length (pointList st) + 0) by lia.
    rewrite lookup_app_l by lia. rewrite lookup_app_r by lia.
    replace (length (pointList st) + 0 - length (pointList st)) with 0 by lia.
    rewrite <- last_lookup. auto.
Qed.

Lemma segment_joins_positions_witness :
  exists st st' i j P,
    readLines ["G1 X1 E1"; "G0 Y-0"] initial_state = Ok st
    /\ processLine st "G1 X2 E1" = Ok st'
    /\ last (connectivity st') = Some (i, j)
    /\ pointList st' !! Z.to_nat i = Some P
    /\ point_eqb (currPoint st) P = true
    /\ pointList st' !! Z.to_nat j = Some (currPoint st').
Proof.
  eexists.
  destruct (segment_joins_positions ["G1 X1 E1"; "G0 Y-0"] _ "G1 X2 E1" _
              ltac:(vm_compute; reflexivity) ltac:(vm_compute; reflexivity)
              ltac:(vm_compute; reflexivity))
    as (st' & i & j & P & H).
  exists st', i, j, P. split; [reflexivity | exact H].
Defined.

(** X17. No coordinate of a point of the result is a NaN. *)
Theorem points_have_no_nan (lines : list string) (pl : list point)
    (conn : list (Z * Z)) :
  readGcodeFile lines = Ok (pl, conn) -> Forall no_nan pl.
Proof.
  intros (st & H & <- & _)%readGcodeFile_state.
  apply (readLines_invariant (fun st => Forall no_nan (pointList st))) in H;
    [exact H | | apply initial_state_ok | constructor].
  intros st0 line d Hd Hok HP.
  assert (Hok' : state_ok (storeSegment (updatePosition st0 d) d)).
  { apply storeSegment_ok, updatePosition_ok; [|exact Hok].
    now apply readGcodeLine_no_nan in Hd. }
  pose proof (step_lists st0 d) as Hs. cbv zeta in Hs.
  destruct (truthy (hasExtrusion d)).
  - destruct Hs as (added & Ha & -> & _). apply Forall_app. split; [exact HP|].
    destruct Hok as (_ & Hc & _), Hok' as (_ & Hc' & _).
    destruct Ha as [->|[-> _]]; repeat constructor; assumption.
  - destruct Hs as [-> _]. exact HP.
Qed.

Lemma points_have_no_nan_witness :
  exists pl conn,
    readGcodeFile ["G1 X-0 Y.5 E1"] = Ok (pl, conn) /\ Forall no_nan pl.
Proof.
  eexists. eexists. split; [vm_compute; reflexivity|].
  apply (points_have_no_nan ["G1 X-0 Y.5 E1"] _ _ ltac:(vm_compute; reflexivity)).
Defined.

Lemma axis_without_coordinate (d : gcode_dict) (x y z : float) :
  hasCoordinate d = false ->
  axis "X" d x = x /\ axis "Y" d y = y /\ axis "Z" d z = z.
Proof.
  rewrite hasCoordinate_spec. unfold contains, axis.
  destruct (fields d !! "X"), (fields d !! "Y"), (fields d !! "Z");
    simpl; try discriminate; auto.
Qed.

(** X18. Each axis of the current position is followed on its own: after
    any lines, it is the entry of the last line that has an entry for it,
    and the value it had when no line has one. Extrusion plays no part. *)
Theorem position_follows_each_axis (lines : list string) :
  forall st st',
    readLines lines st = Ok st' ->
    currPoint st'
    = let '(x, y, z) := currPoint st in
      (axis_after "X" lines x, axis_after "Y" lines y, axis_after "Z" lines z).
Proof.
  unfold readLines, axis_after.
  induction lines as [|line lines IH]; simpl; intros st st'.
  - intros [= <-]. now destruct (currPoint st) as [[x y] z].
  - destruct (readGcodeLine line) as [d|e] eqn:E.
    + rewrite (processLine_spec st line d E). simpl. intros H.
      rewrite (IH _ _ H).
      destruct (storeSegment_positions (updatePosition st d) d) as [_ ->].
      rewrite updatePosition_spec.
      destruct (currPoint st) as [[x y] z] eqn:Ec.
      destruct (hasCoordinate d) eqn:Hc; simpl; [reflexivity|].
      rewrite Ec. now destruct (axis_without_coordinate d x y z Hc) as (-> & -> & ->).
    + now rewrite (processLine_raise st line e E).
Qed.

Lemma position_follows_each_axis_witness :
  exists st',
    readLines ["G1 X1 Y2"; "G1 Z3 E1"; "G0 X4"] initial_state = Ok st'
    /\ currPoint st'
       = (axis_after "X" ["G1 X1 Y2"; "G1 Z3 E1"; "G0 X4"] zero,
          axis_after "Y" ["G1 X1 Y2"; "G1 Z3 E1"; "G0 X4"] zero,
          axis_after "Z" ["G1 X1 Y2"; "G1 Z3 E1"; "G0 X4"] zero).
Proof.
  eexists. split; [vm_compute; reflexivity|].
  apply (position_follows_each_axis ["G1 X1 Y2"; "G1 Z3 E1"; "G0 X4"]
           initial_state).
  vm_compute. reflexivity.
Defined.

(** ** Further results on the writers *)

Lemma strip_ends_parens (s : string) : strip_ends ("(" +:+ s +:+ ")") = s.
Proof.
  unfold strip_ends. simpl String.append. simpl String.length.
  rewrite string_app_length. simpl String.length.
  replace (S (String.length s + 1) - 2) with (String.length s) by lia.
  simpl. apply substring_prefix.
Qed.

(** X19. The text that [write2TxtFile] produces is the line [POINTS N],
    one row per point with its three coordinates as they are, separated by
    a comma and a space, the line [LINES M], and one row [i, j] per pair.
    Nothing is scaled. *)
Theorem write2TxtFile_text (repr_float : float -> string)
    (pointList : list point) (connectivity : list (Z * Z)) :
  write2TxtFile repr_float pointList connectivity
  = text_of
      (["POINTS " +:+ str_int (Z.of_nat (length pointList)) +:+ nl]
       ++ List.map
            (fun p : point =>
               let '(x, y, z) := p in
               repr_float x +:+ ", " +:+ repr_float y +:+ ", "
               +:+ repr_float z +:+ nl)
            pointList
       ++ ["LINES " +:+ str_int (Z.of_nat (length connectivity)) +:+ nl]
       ++ List.map
            (fun l : Z * Z =>
               str_int (fst l) +:+ ", " +:+ str_int (snd l) +:+ nl)
            connectivity).
Proof.
  unfold write2TxtFile.
  rewrite (fold_left_write
             (fun l => strip_ends (str_pair l) +:+ nl)).
  rewrite (fold_left_write
             (fun p => strip_ends (str_point repr_float p) +:+ nl)).
  rewrite !text_of_app. unfold write.
  assert (Hp : List.map (fun p => strip_ends (str_point repr_float p) +:+ nl)
                 pointList
               = List.map
                   (fun p : point =>
                      let '(x, y, z) := p in
                      repr_float x +:+ ", " +:+ repr_float y +:+ ", "
                      +:+ repr_float z +:+ nl)
                   pointList).
  { apply List.map_ext. intros [[x y] z]. unfold str_point.
    rewrite strip_ends_parens. simpl.
    now repeat (rewrite string_app_assoc; simpl). }
  assert (Hc : List.map (fun l => strip_ends (str_pair l) +:+ nl) connectivity
               = List.map
                   (fun l : Z * Z =>
                      str_int (fst l) +:+ ", " +:+ str_int (snd l) +:+ nl)
                   connectivity).
  { apply List.map_ext. intros l.
    replace (str_pair l)
      with ("(" +:+ (str_int (fst l) +:+ ", " +:+ str_int (snd l)) +:+ ")")
      by (unfold str_pair; now rewrite !string_app_assoc).
    rewrite strip_ends_parens.
    now repeat (rewrite string_app_assoc; simpl). }
  rewrite Hp, Hc. simpl text_of. rewrite !string_app_nil_r.
  now repeat (rewrite string_app_assoc; simpl).
Qed.

(** ** Results on the default name of the output file *)

Lemma has_char_app (c : ascii) (a b : string) :
  has_char c (a +:+ b) = has_char c a || has_char c b.
Proof.
  induction a as [|x a IH]; simpl; [reflexivity|].
  now rewrite IH, orb_assoc.
Qed.

Lemma rsplit_none (c : ascii) (s : string) :
  has_char c s = false -> rsplit c s = None.
Proof.
  induction s as [|a s IH]; simpl; [reflexivity|].
  intros [Ha Hs]%orb_false_iff. now rewrite (IH Hs), Ha.
Qed.

Lemma rsplit_last (c : ascii) (before after : string) :
  has_char c after = false ->
  rsplit c (before +:+ String c after) = Some (before, after).
Proof.
  intros H. induction before as [|a b IH]; simpl.
  - now rewrite (rsplit_none c after H), Ascii.eqb_refl.
  - now rewrite IH.
Qed.

Lemma rsplit_Some (c : ascii) (s before after : string) :
  rsplit c s = Some (before, after) ->
  s = before +:+ String c after /\ has_char c after = false.
Proof.
  revert before. induction s as [|a s IH]; simpl; intros before; [discriminate|].
  destruct (rsplit c s) as [[b r]|] eqn:E.
  - intros [= <- <-]. destruct (IH b eq_refl) as [-> H]. auto.
  - destruct (Ascii.eqb_spec a c) as [->|]; [|discriminate].
    intros [= <- <-]. split; [reflexivity|].
    clear IH. induction s as [|x s IH]; [reflexivity|]. simpl in *.
    destruct (rsplit c s) as [[? ?]|]; [discriminate|].
    destruct (Ascii.eqb x c); [discriminate|]. now apply IH.
Qed.

Lemma basename_no_slash (p : string) : has_char "/" (basename p) = false.
Proof.
  unfold basename. destruct (rsplit "/" p) as [[b a]|] eqn:E.
  - now apply rsplit_Some in E.
  - induction p as [|x p IH]; [reflexivity|]. simpl in *.
    destruct (rsplit "/" p) as [[? ?]|]; [discriminate|].
    destruct (Ascii.eqb x "/"); [discriminate|]. now apply IH.
Qed.

Lemma basename_of_name (dir name : string) :
  has_char "/" name = false ->
  dir = "" \/ (exists d, dir = d +:+ "/") ->
  basename (dir +:+ name) = name.
Proof.
  intros Hn [->|[d ->]]; unfold basename.
  - simpl. now rewrite (rsplit_none "/" name Hn).
  - rewrite string_app_assoc. simpl. now rewrite (rsplit_last "/" d name Hn).
Qed.

(** X20. With no name given for the output, the name is made of the file
    name of the input, without its directory and without its last
    extension, and the ending [-gcode.vtk]. *)
Theorem path2vtk_strips_directory_and_extension (dir stem ext : string) :
  dir = "" \/ (exists d, dir = d +:+ "/") ->
  has_char "/" stem = false -> all_char "." stem = false ->
  has_char "/" ext = false -> has_char "." ext = false ->
  path2vtk (dir +:+ stem +:+ "." +:+ ext) None = stem +:+ "-gcode.vtk".
Proof.
  intros Hdir Hs Hnd He1 He2. unfold path2vtk, normcase.
  rewrite basename_of_name; [|simpl; rewrite has_char_app; simpl;
                              now rewrite Hs, He1 | exact Hdir].
  unfold splitext. simpl String.append at 1.
  rewrite (rsplit_last "." stem ext He2), He1.
  unfold basename. rewrite (rsplit_none "/" stem Hs), Hnd. reflexivity.
Qed.

Lemma path2vtk_strips_directory_and_extension_witness :
  path2vtk ("out/parts/" +:+ "part.v2" +:+ "." +:+ "gcode") None
  = "part.v2" +:+ "-gcode.vtk".
Proof.
  apply path2vtk_strips_directory_and_extension;
    [right; exists "out/parts"; reflexivity | reflexivity..].
Defined.

(** X21. A name with no point, or with points at its start only, has no
    extension to take off: the whole file name is kept before the ending
    [-gcode.vtk]. *)
Theorem path2vtk_keeps_name_without_extension (dir dots rest : string) :
  dir = "" \/ (exists d, dir = d +:+ "/") ->
  all_char "." dots = true ->
  has_char "/" rest = false -> has_char "." rest = false ->
  path2vtk (dir +:+ dots +:+ rest) None = dots +:+ rest +:+ "-gcode.vtk".
Proof.
  intros Hdir Hd Hr1 Hr2. unfold path2vtk, normcase.
  assert (Hds : has_char "/" dots = false).
  { induction dots as [|x dots IH]; [reflexivity|]. simpl in *.
    apply andb_true_iff in Hd as [Hx Hd]. apply Ascii.eqb_eq in Hx as ->.
    now apply IH. }
  rewrite basename_of_name; [|now rewrite has_char_app, Hds, Hr1 | exact Hdir].
  assert (Hsplit : splitext (dots +:+ rest) = (dots +:+ rest, "")).
  { unfold splitext. destruct (rsplit "." (dots +:+ rest)) as [[root ext]|] eqn:E;
      [|reflexivity].
    assert (Hroot : all_char "." (basename root) = true).
    { clear Hds. revert root E.
      induction dots as [|x dots IH]; intros root E.
      - simpl in E. now rewrite (rsplit_none "." rest Hr2) in E.
      - simpl in Hd. apply andb_true_iff in Hd as [Hx Hd].
        apply Ascii.eqb_eq in Hx as ->. simpl in E.
        destruct (rsplit "." (dots +:+ rest)) as [[b a]|] eqn:E'.
        + injection E as <- <-. specialize (IH Hd b eq_refl).
          unfold basename in *. simpl.
          destruct (rsplit "/" b) as [[? ?]|]; [exact IH|].
          simpl. exact IH.
        + injection E as <- <-. reflexivity. }
    now rewrite Hroot, andb_false_r. }
  rewrite Hsplit. simpl. now rewrite string_app_assoc.
Qed.

Lemma path2vtk_keeps_name_without_extension_witness :
  path2vtk ("jobs/" +:+ "." +:+ "gcode") None = "." +:+ "gcode" +:+ "-gcode.vtk".
Proof.
  apply path2vtk_keeps_name_without_extension;
    [right; exists "jobs"; reflexivity | reflexivity..].
Defined.

(** X22. The name made for the output has no directory in it, whatever
    the path of the input: it is a start of the input's file name and the
    ending [-gcode.vtk]. An empty name given for the output counts as none,
    and any other name given is taken as it is. *)
Theorem path2vtk_in_current_directory (path2gcode : string) :
  has_char "/" (path2vtk path2gcode None) = false
  /\ (exists head tail,
         basename path2gcode = head +:+ tail
         /\ path2vtk path2gcode None = head +:+ "-gcode.vtk")
  /\ path2vtk path2gcode (Some "") = path2vtk path2gcode None
  /\ (forall c s, path2vtk path2gcode (Some (String c s)) = String c s).
Proof.
  assert (H : exists head tail,
             basename path2gcode = head +:+ tail
             /\ path2vtk path2gcode None = head +:+ "-gcode.vtk").
  { unfold path2vtk, normcase, splitext.
    destruct (rsplit "." (basename path2gcode)) as [[root ext]|] eqn:E.
    - destruct (negb (has_char "/" ext) && negb (all_char "." (basename root))).
      + apply rsplit_Some in E as [E _]. exists root, (String "." ext). auto.
      + exists (basename path2gcode), "". now rewrite string_app_nil_r.
    - exists (basename path2gcode), "". now rewrite string_app_nil_r. }
  split; [|split; [exact H | split; reflexivity]].
  destruct H as (head & tail & Hb & ->).
  pose proof (basename_no_slash path2gcode) as Hn.
  rewrite Hb, has_char_app in Hn. apply orb_false_iff in Hn as [Hn _].
  now rewrite has_char_app, Hn.
Qed.
